(** * Wiring-diagram layout: a shallow embedding of [interconnection_drawio.py]

    The development follows [generate_drawio_diagram] stage by stage:
    row filtering, signal classification, the topology index (the nested
    insertion-ordered dictionaries [left_connectors] / [right_connectors] and
    the list [connections]), the provisional placement, the centre of mass,
    the coordinated final placement, and the wire router.

    Modelling conventions.
    - A Python [str] is a [string] of bytes (UTF-8).  Ordering by bytes
      coincides with Python's ordering by code point.  [lower] and [strip]
      act on the ASCII range (letters A-Z; whitespace 9-13, 28-32).
    - A Python [dict] is an association list in insertion order with pairwise
      distinct keys: assigning to a present key keeps its position.
    - Python integers are [Z]; row indices and cell ids are [nat].
    - A Python [float] is a [spec_float] at binary64 (IEEE comparisons,
      correctly rounded division). *)

From Stdlib Require Import List String Ascii ZArith Lia Bool Arith.
From Stdlib Require Import Sorting.Sorted Sorting.Permutation.
From Stdlib Require Import Structures.OrderedTypeEx.
From Stdlib Require Import Floats.SpecFloat.
From Stdlib Require Import Numbers.DecimalString.
Import ListNotations.

Local Open Scope string_scope.
Local Open Scope list_scope.
Local Open Scope Z_scope.

(* ================================================================== *)
(** ** Python strings *)

Module PyStr.

(** [c.lower()] on one ASCII character. *)
Definition lower_char (c : ascii) : ascii :=
  let n := nat_of_ascii c in
  if andb (Nat.leb 65 n) (Nat.leb n 90) then ascii_of_nat (n + 32) else c.

(** [s.lower()]. *)
Fixpoint lower (s : string) : string :=
  match s with
  | EmptyString => EmptyString
  | String c t => String (lower_char c) (lower t)
  end.

(** The ASCII characters [str.strip()] removes. *)
Definition is_space (c : ascii) : bool :=
  let n := nat_of_ascii c in
  orb (andb (Nat.leb 9 n) (Nat.leb n 13)) (andb (Nat.leb 28 n) (Nat.leb n 32)).

Fixpoint lstrip (s : string) : string :=
  match s with
  | EmptyString => EmptyString
  | String c t => if is_space c then lstrip t else s
  end.

Fixpoint rstrip (s : string) : string :=
  match s with
  | EmptyString => EmptyString
  | String c t =>
      match rstrip t with
      | EmptyString => if is_space c then EmptyString else String c EmptyString
      | t' => String c t'
      end
  end.

(** [s.strip()]. *)
Definition strip (s : string) : string := rstrip (lstrip s).

(** [str(n)] for a non-negative integer. *)
Definition str_of_nat (n : nat) : string := NilEmpty.string_of_uint (Nat.to_uint n).

(** [sep.join(l)]. *)
Definition join (sep : string) (l : list string) : string := String.concat sep l.

End PyStr.

(* ================================================================== *)
(** ** Python dictionaries (insertion ordered) *)

Module Dict.

Definition dict (V : Type) : Type := list (string * V).

Section Ops.
Context {V : Type}.

(** [d.get(k)]. *)
Fixpoint get (d : dict V) (k : string) : option V :=
  match d with
  | [] => None
  | (k', v) :: t => if String.eqb k k' then Some v else get t k
  end.

(** [k in d]. *)
Definition mem (d : dict V) (k : string) : bool :=
  match get d k with Some _ => true | None => false end.

(** [d[k] = v]: a present key keeps its place, a new key goes last. *)
Fixpoint set (d : dict V) (k : string) (v : V) : dict V :=
  match d with
  | [] => [(k, v)]
  | (k', v') :: t => if String.eqb k k' then (k', v) :: t else (k', v') :: set t k v
  end.

(** [d.keys()], [d.values()]. *)
Definition keys (d : dict V) : list string := map fst d.
Definition values (d : dict V) : list V := map snd d.

(** [d.get(k, dflt)]; also the read [d[k]] of a [defaultdict] whose factory
    yields [dflt]. *)
Definition get_or (dflt : V) (d : dict V) (k : string) : V :=
  match get d k with Some v => v | None => dflt end.

End Ops.

End Dict.

Import Dict.

(* ================================================================== *)
(** ** [sorted]: a stable sort that only uses [<] *)

Section Sorted.
Context {A : Type}.
Variable lt : A -> A -> bool.

(** An element goes in front of the first one that is not smaller than it,
    so equal elements keep their input order. *)
Fixpoint insert_sorted (x : A) (l : list A) : list A :=
  match l with
  | [] => [x]
  | y :: t => if lt y x then y :: insert_sorted x t else x :: y :: t
  end.

Definition sorted (l : list A) : list A := fold_right insert_sorted [] l.

End Sorted.

(** [sorted(l)] on strings, and [sorted(l, key=f)]. *)
Definition sorted_str (l : list string) : list string := sorted String.ltb l.

Definition sorted_key {A K : Type} (lt : K -> K -> bool) (f : A -> K) (l : list A) : list A :=
  sorted (fun a b => lt (f a) (f b)) l.

(* ================================================================== *)
(** ** The input table *)

(** A spreadsheet cell as pandas shows it: missing ([NaN]) or a value, kept
    here by its string form [str(value)]. *)
Inductive Cell : Type :=
| NaN
| Val (s : string).

Definition notna (c : Cell) : bool :=
  match c with NaN => false | Val _ => true end.

(** [astype(str)] on one cell. *)
Definition astype_str (c : Cell) : string :=
  match c with NaN => "nan" | Val s => s end.

(** A row: the cells under the eight required columns. *)
Record Row : Type := mkRow {
  Modulo1 : Cell;
  Conector1 : Cell;
  Pin1 : Cell;
  Senal1 : Cell;
  Senal2 : Cell;
  Pin2 : Cell;
  Conector2 : Cell;
  Modulo2 : Cell
}.

(** The sheet as [pd.read_excel] returns it: header names and rows. *)
Record DataFrame : Type := mkDF {
  columns : list string;
  rows : list Row
}.

Definition required_cols : list string :=
  ["Modulo1"; "Conector1"; "Pin1"; "Señal1"; "Señal2"; "Pin2"; "Conector2"; "Modulo2"].

(** Lines 34 and 40: header names are stripped, then the required ones that
    are absent are collected. *)
Definition missing_cols (df : DataFrame) : list string :=
  let cols := map PyStr.strip (columns df) in
  filter (fun col => negb (existsb (String.eqb col) cols)) required_cols.

(** Lines 45-55 for one pin column: [dropna], then the stripped string form
    must be neither empty nor ["nan"] in any letter case. *)
Definition pin_kept (c : Cell) : bool :=
  notna c &&
  let s := PyStr.strip (astype_str c) in
  negb (String.eqb s "") && negb (String.eqb (PyStr.lower s) "nan").

(** The stripped string form of a pin cell reads ["nan"] in some letter
    case; [str] of a missing cell is such a string. *)
Definition nan_like (c : Cell) : Prop :=
  PyStr.lower (PyStr.strip (astype_str c)) = "nan".

(** Lines 45-58 for one row. *)
Definition row_kept (r : Row) : bool :=
  pin_kept (Pin1 r) && pin_kept (Pin2 r) &&
  notna (Modulo1 r) && notna (Conector1 r) && notna (Modulo2 r) && notna (Conector2 r).

Definition filter_rows (rs : list Row) : list Row := filter row_kept rs.

(** A row of the filtered frame as the loop of line 81 reads it, with its
    index [row_idx] (the frame's index after [reset_index]).  The same
    fields make up an entry of the list [connections]. *)
Record Connection : Type := mkConn {
  mod1 : string;
  conn1 : string;
  pin1 : string;
  signal1 : string;
  mod2 : string;
  conn2 : string;
  pin2 : string;
  signal2 : string;
  row_idx : nat
}.

(** Lines 85 and 90. *)
Definition read_signal (c : Cell) : string :=
  if notna c then PyStr.strip (astype_str c) else "".

(** Lines 48-49 and 82-90. *)
Definition read_row (idx : nat) (r : Row) : Connection :=
  {| mod1 := PyStr.strip (astype_str (Modulo1 r));
     conn1 := PyStr.strip (astype_str (Conector1 r));
     pin1 := PyStr.strip (astype_str (Pin1 r));
     signal1 := read_signal (Senal1 r);
     mod2 := PyStr.strip (astype_str (Modulo2 r));
     conn2 := PyStr.strip (astype_str (Conector2 r));
     pin2 := PyStr.strip (astype_str (Pin2 r));
     signal2 := read_signal (Senal2 r);
     row_idx := idx |}.

(** [df.iterrows()] over the filtered frame, counting from [idx]. *)
Fixpoint iterrows (idx : nat) (rs : list Row) : list Connection :=
  match rs with
  | [] => []
  | r :: t => read_row idx r :: iterrows (S idx) t
  end.

(* ================================================================== *)
(** ** Signal classifier *)

Definition NC_WORDS : list string :=
  [""; "nc"; "n/c"; "n.c."; "no connect"; "noconnect"; "n_c"; "na"; "n/a"].

(** Lines 72-79. *)
Definition is_valid_signal (signal : string) : bool :=
  if String.eqb signal "" then false
  else
    let signal_lower := PyStr.strip (PyStr.lower signal) in
    if existsb (String.eqb signal_lower) NC_WORDS then false else true.

(** The specification's wording: invalid when, after trimming and
    lowercasing, the name is empty or a "not connected" synonym. *)
Definition spec_invalid_signal (signal : string) : Prop :=
  let t := PyStr.lower (PyStr.strip signal) in
  t = "" \/ In t ["nc"; "n/c"; "n.c."; "no connect"; "noconnect"; "n_c"; "na"; "n/a"].

(* ================================================================== *)
(** ** Topology index *)

(** One entry of a pin's list: [{'signal': ..., 'row_idx': ...}]. *)
Record PinConn : Type := mkPinConn {
  pc_signal : string;
  pc_row_idx : nat
}.

Definition PinsDict : Type := dict (list PinConn).
Definition ConnsDict : Type := dict PinsDict.
Definition ModsDict : Type := dict ConnsDict.

(** [d[m][c][p].append(e)] on the nested [defaultdict]. *)
Definition add_pin (d : ModsDict) (m c p : string) (e : PinConn) : ModsDict :=
  let conns := get_or [] d m in
  let pins := get_or [] conns c in
  let l := get_or [] pins p in
  Dict.set d m (Dict.set conns c (Dict.set pins p (l ++ [e]))).

Record Index : Type := mkIndex {
  left_connectors : ModsDict;
  right_connectors : ModsDict;
  connections : list Connection
}.

(** [d[m][c][p]] read without inserting: the entries recorded for pin [p]
    of connector [c] of module [m]. *)
Definition pins_at (d : ModsDict) (m c p : string) : list PinConn :=
  get_or [] (get_or [] (get_or [] d m) c) p.

(** Some pin of [d] lists row [i]. *)
Definition has_pin (d : ModsDict) (i : nat) : Prop :=
  exists m c p e, In e (pins_at d m c p) /\ pc_row_idx e = i.

Definition empty_index : Index := mkIndex [] [] [].

(** Lines 92-126: the body of the loop of line 81. *)
Definition index_row (ix : Index) (row : Connection) : Index :=
  let signal1_valid := is_valid_signal (signal1 row) in
  let signal2_valid := is_valid_signal (signal2 row) in
  if negb signal1_valid && negb signal2_valid then ix
  else
    {| left_connectors :=
         if signal1_valid
         then add_pin (left_connectors ix) (mod1 row) (conn1 row) (pin1 row)
                (mkPinConn (signal1 row) (row_idx row))
         else left_connectors ix;
       right_connectors :=
         if signal2_valid
         then add_pin (right_connectors ix) (mod2 row) (conn2 row) (pin2 row)
                (mkPinConn (signal2 row) (row_idx row))
         else right_connectors ix;
       connections :=
         if signal1_valid && signal2_valid
         then connections ix ++ [row]
         else connections ix |}.

Definition index_from (ix : Index) (rs : list Connection) : Index :=
  fold_left index_row rs ix.

Definition build_index (rs : list Row) : Index :=
  index_from empty_index (iterrows 0 rs).

(* ================================================================== *)
(** ** Diagram constants (lines 129-135, 555-556) *)

Definition connector_width : Z := 240.
Definition connector_padding : Z := 20.
Definition pin_height : Z := 28.
Definition module_spacing : Z := 50.
Definition horizontal_gap : Z := 450.
Definition margin_x : Z := 50.
Definition margin_y : Z := 100.
Definition spacing : Z := 12.
Definition base_offset : Z := 30.
Definition pin_start_y : Z := 50.

(* ================================================================== *)
(** ** Python floats *)

Definition prec : Z := 53.
Definition emax : Z := 1024.

(** [float(z)] for an integer. *)
Definition float_of_Z (z : Z) : spec_float := binary_normalize prec emax z 0 false.

(** [a / b] on integers: the correctly rounded quotient (as long as both
    are below 2^53 in magnitude, which holds for every coordinate sum a
    sheet can produce). *)
Definition truediv (a b : Z) : spec_float :=
  SFdiv prec emax (float_of_Z a) (float_of_Z b).

(** The integer [0] used as a sort key next to floats. *)
Definition float_zero : spec_float := S754_zero false.

Definition is_nan (x : spec_float) : bool :=
  match x with S754_nan => true | _ => false end.

(** The key of [sort_key]: [(0, float(pin))] or [(1, pin)]. *)
Inductive SortKey : Type :=
| KNum (x : spec_float)
| KStr (s : string).

(** [a < b] on such tuples: the first components decide unless they agree;
    two floats compare as IEEE floats, two strings by code point. *)
Definition key_lt (a b : SortKey) : bool :=
  match a, b with
  | KNum x, KNum y => SFltb x y
  | KNum _, KStr _ => true
  | KStr _, KNum _ => false
  | KStr s, KStr t => String.ltb s t
  end.

(** A plain decimal reading of [float]: an optional sign followed by
    digits, or a signed ["nan"], ["inf"], ["infinity"] in any letter case.
    It agrees with Python's [float] on every string it accepts; Python
    accepts more (fractions, exponents, underscores), so this reading
    serves the closed examples, and the general results below hold for
    every parser. *)
Definition digit_of (c : ascii) : option Z :=
  let n := nat_of_ascii c in
  if andb (Nat.leb 48 n) (Nat.leb n 57) then Some (Z.of_nat (n - 48)) else None.

Fixpoint digits_value (acc : Z) (s : string) : option Z :=
  match s with
  | EmptyString => Some acc
  | String c t =>
      match digit_of c with
      | Some d => digits_value (10 * acc + d) t
      | None => None
      end
  end.

Definition unsigned_float (s : string) : option spec_float :=
  let low := PyStr.lower s in
  if String.eqb low "nan" then Some S754_nan
  else if String.eqb low "inf" || String.eqb low "infinity" then Some (S754_infinity false)
  else
    match s with
    | EmptyString => None
    | _ => option_map float_of_Z (digits_value 0 s)
    end.

Definition decimal_float (s : string) : option spec_float :=
  match s with
  | String "+" t => unsigned_float t
  | String "-" t => option_map SFopp (unsigned_float t)
  | _ => unsigned_float s
  end.

(* ================================================================== *)
(** ** Connector boxes *)

(** One element of [pins_list]. *)
Record PinData : Type := mkPinData {
  pd_pin : string;
  pd_signal : string;
  pd_connections : list PinConn
}.

(** One value of [temp_left], [left_positions], ... *)
Record Position : Type := mkPos {
  pos_x : Z;
  pos_y : Z;
  pos_width : Z;
  pos_height : Z;
  pos_pins : list PinData;
  pos_module : string;
  pos_connector : string
}.

(** [f"{mod_name}:{conn_name}"]. *)
Definition conn_key (mod_name conn_name : string) : string :=
  mod_name ++ ":" ++ conn_name.

Definition left_key_of (conn : Connection) : string := conn_key (mod1 conn) (conn1 conn).
Definition right_key_of (conn : Connection) : string := conn_key (mod2 conn) (conn2 conn).

(** [connections_list[0]['signal']]; the list of a pin is never empty,
    since a pin only comes to exist through an [append]. *)
Definition first_signal (l : list PinConn) : string :=
  match l with
  | e :: _ => pc_signal e
  | [] => ""
  end.

(** [len(pins_list) * pin_height + 60]. *)
Definition connector_height (pins_list : list PinData) : Z :=
  Z.of_nat (List.length pins_list) * pin_height + 60.

Definition right_x : Z := margin_x + connector_width + horizontal_gap.

Section Layout.

(** Python's [float] on strings, as [Some] value or [None] for [ValueError]. *)
Variable py_float : string -> option spec_float.

(** Lines 225-229, 290-294, 404-408. *)
Definition sort_key (pin : string) : SortKey :=
  match py_float pin with
  | Some x => KNum x
  | None => KStr pin
  end.

(** [sorted(pins_dict.keys(), key=sort_key)]. *)
Definition sorted_pins (pins_dict : PinsDict) : list string :=
  sorted_key key_lt sort_key (keys pins_dict).

(** Lines 298-306 (and 233-241, 355-363, 412-420). *)
Definition make_pins_list (pins_dict : PinsDict) : list PinData :=
  map (fun pin =>
         let connections_list := get_or [] pins_dict pin in
         mkPinData pin (first_signal connections_list) connections_list)
      (sorted_pins pins_dict).

(** The box of connector [conn_name] of module [mod_name] put at [(x, y)]. *)
Definition make_box (connectors_dict : ModsDict) (x y : Z) (mod_name conn_name : string) : Position :=
  let pins_list := make_pins_list (get_or [] (get_or [] connectors_dict mod_name) conn_name) in
  mkPos x y connector_width (connector_height pins_list) pins_list mod_name conn_name.

(** [sorted(connectors_dict[mod_name].keys())]; a module absent from the
    dictionary has no connector ([.get(mod_name, {})]). *)
Definition sorted_connectors (connectors_dict : ModsDict) (mod_name : string) : list string :=
  sorted_str (keys (get_or [] connectors_dict mod_name)).

(** *** Provisional placement (lines 217-262) *)

Definition initial_connector (connectors_dict : ModsDict) (is_left : bool) (mod_name : string)
    (st : dict Position * Z) (conn_name : string) : dict Position * Z :=
  let '(positions, current_y) := st in
  let x_pos := if is_left then margin_x else right_x in
  let box := make_box connectors_dict x_pos current_y mod_name conn_name in
  (Dict.set positions (conn_key mod_name conn_name) box,
   current_y + pos_height box + connector_padding).

Definition initial_module (connectors_dict : ModsDict) (is_left : bool)
    (st : dict Position * Z) (mod_name : string) : dict Position * Z :=
  let '(positions, current_y) :=
    fold_left (initial_connector connectors_dict is_left mod_name)
              (sorted_connectors connectors_dict mod_name) st in
  (positions, current_y + module_spacing).

Definition calculate_initial_positions (connectors_dict : ModsDict) (is_left : bool) : dict Position :=
  fst (fold_left (initial_module connectors_dict is_left)
                 (sorted_str (keys connectors_dict)) ([], margin_y)).

(** *** Centre of mass (lines 181-214) *)

(** Lines 195-210: one connection seen from the connector [conn_key]; the
    accumulator is [(weighted_sum, total_weight)]. *)
Definition center_add (is_left : bool) (conn_key : string) (other_positions_dict : dict Position)
    (acc : Z * Z) (conn : Connection) : Z * Z :=
  let '(weighted_sum, total_weight) := acc in
  let own_key := if is_left then left_key_of conn else right_key_of conn in
  let target_key := if is_left then right_key_of conn else left_key_of conn in
  if String.eqb own_key conn_key then
    match Dict.get other_positions_dict target_key with
    | Some target => (weighted_sum + pos_y target * 1, total_weight + 1)
    | None => acc
    end
  else acc.

Definition center_sums (conns : list Connection) (module_key : string) (is_left : bool)
    (positions_dict other_positions_dict : dict Position) : Z * Z :=
  fold_left
    (fun acc conn_key =>
       if negb (String.prefix (module_key ++ ":") conn_key) then acc
       else fold_left (center_add is_left conn_key other_positions_dict) conns acc)
    (keys positions_dict) (0, 0).

Definition calculate_center_of_mass (conns : list Connection) (module_key : string) (is_left : bool)
    (positions_dict other_positions_dict : dict Position) : spec_float :=
  if negb (Dict.mem positions_dict module_key) then float_zero
  else
    let '(weighted_sum, total_weight) :=
      center_sums conns module_key is_left positions_dict other_positions_dict in
    if total_weight =? 0 then float_zero
    else truediv weighted_sum total_weight.

Definition temp_left (ix : Index) : dict Position :=
  calculate_initial_positions (left_connectors ix) true.

Definition temp_right (ix : Index) : dict Position :=
  calculate_initial_positions (right_connectors ix) false.

(** Lines 269-272. *)
Definition left_modules (ix : Index) : dict spec_float :=
  fold_left
    (fun d mod_name =>
       Dict.set d mod_name
         (calculate_center_of_mass (connections ix) mod_name true (temp_left ix) (temp_right ix)))
    (keys (left_connectors ix)) [].

(** Line 275. *)
Definition sorted_left_modules (ix : Index) : list string :=
  sorted_key SFltb (fun m => get_or float_zero (left_modules ix) m) (keys (left_modules ix)).

(** *** Coordinated final placement (lines 280-392) *)

(** Lines 325-328, then [sorted] as in line 331. *)
Definition connected_right_modules (conns : list Connection) (left_key : string) : list string :=
  sorted_str
    (nodup string_dec
       (map mod2 (filter (fun conn => String.eqb (left_key_of conn) left_key) conns))).

(** Lines 340-346. *)
Definition has_connection (conns : list Connection) (left_key right_mod_name right_conn_name : string) : bool :=
  existsb
    (fun conn =>
       String.eqb (left_key_of conn) left_key
       && String.eqb (mod2 conn) right_mod_name
       && String.eqb (conn2 conn) right_conn_name)
    conns.

(** Lines 333-378: the body of the loop of line 332; the state is
    [(right_positions, right_start_y)]. *)
Definition place_right_connector (ix : Index) (left_key right_mod_name : string)
    (st : dict Position * Z) (right_conn_name : string) : dict Position * Z :=
  let '(right_positions, right_start_y) := st in
  let right_key := conn_key right_mod_name right_conn_name in
  if Dict.mem right_positions right_key then st
  else if negb (has_connection (connections ix) left_key right_mod_name right_conn_name) then st
  else
    let box := make_box (right_connectors ix) right_x right_start_y right_mod_name right_conn_name in
    (Dict.set right_positions right_key box,
     right_start_y + pos_height box + connector_padding).

(** Lines 331-378. *)
Definition place_right (ix : Index) (left_key : string) (st : dict Position * Z) : dict Position * Z :=
  fold_left
    (fun st right_mod_name =>
       fold_left (place_right_connector ix left_key right_mod_name)
                 (sorted_connectors (right_connectors ix) right_mod_name) st)
    (connected_right_modules (connections ix) left_key) st.

(** Lines 382-389; the set is walked in sorted order here, and a maximum
    does not depend on the order. *)
Definition lowest_right (ix : Index) (left_key : string) (right_positions : dict Position) (start : Z) : Z :=
  fold_left
    (fun max_right_y right_mod_name =>
       fold_left
         (fun max_right_y right_conn_name =>
            match Dict.get right_positions (conn_key right_mod_name right_conn_name) with
            | Some p => Z.max max_right_y (pos_y p + pos_height p)
            | None => max_right_y
            end)
         (sorted_connectors (right_connectors ix) right_mod_name) max_right_y)
    (connected_right_modules (connections ix) left_key) start.

Record LayoutState : Type := mkLayout {
  left_positions : dict Position;
  right_positions : dict Position;
  current_y : Z
}.

(** Lines 286-392: the body of the loop of line 285. *)
Definition place_left_connector (ix : Index) (mod_name : string)
    (st : LayoutState) (conn_name : string) : LayoutState :=
  let left_key := conn_key mod_name conn_name in
  let box := make_box (left_connectors ix) margin_x (current_y st) mod_name conn_name in
  let left_positions' := Dict.set (left_positions st) left_key box in
  let right_start_y := current_y st in
  let '(right_positions', _) := place_right ix left_key (right_positions st, right_start_y) in
  let max_right_y := lowest_right ix left_key right_positions' (current_y st + pos_height box) in
  mkLayout left_positions' right_positions' (max_right_y + module_spacing).

(** Lines 284-392. *)
Definition place_left (ix : Index) (order : list string) (st : LayoutState) : LayoutState :=
  fold_left
    (fun st mod_name =>
       fold_left (place_left_connector ix mod_name)
                 (sorted_connectors (left_connectors ix) mod_name) st)
    order st.

(** Lines 397-435: the body of the loop of line 396. *)
Definition place_leftover (ix : Index) (mod_name : string)
    (st : LayoutState) (conn_name : string) : LayoutState :=
  let right_key := conn_key mod_name conn_name in
  if Dict.mem (right_positions st) right_key then st
  else
    let box := make_box (right_connectors ix) right_x (current_y st) mod_name conn_name in
    mkLayout (left_positions st)
             (Dict.set (right_positions st) right_key box)
             (current_y st + pos_height box + connector_padding).

(** Lines 395-435. *)
Definition place_leftovers (ix : Index) (st : LayoutState) : LayoutState :=
  fold_left
    (fun st mod_name =>
       fold_left (place_leftover ix mod_name)
                 (sorted_connectors (right_connectors ix) mod_name) st)
    (sorted_str (keys (right_connectors ix))) st.

(** Lines 280-435. *)
Definition layout (ix : Index) : LayoutState :=
  place_leftovers ix
    (place_left ix (sorted_left_modules ix) (mkLayout [] [] margin_y)).

(** *** Pin cells (lines 451-551) *)

(** [f"left:{module}:{connector}:{row_idx}"] or its ["right:"] twin. *)
Definition pin_id_key (is_right : bool) (module connector : string) (row_idx : nat) : string :=
  (if is_right then "right" else "left") ++ ":" ++ module ++ ":" ++ connector ++ ":"
    ++ PyStr.str_of_nat row_idx.

(** Lines 487-543 for one pin: the pin circle takes [cell_id], its text
    label the next id; every connection of the pin is mapped to the circle.
    The state is [(cell_id, pin_ids)]. *)
Definition register_pin (is_right : bool) (module connector : string)
    (st : nat * dict nat) (pin_data : PinData) : nat * dict nat :=
  let '(cell_id, pin_ids) := st in
  let pin_id := cell_id in
  (cell_id + 2,
   fold_left
     (fun ids conn => Dict.set ids (pin_id_key is_right module connector (pc_row_idx conn)) pin_id)
     (pd_connections pin_data) pin_ids)%nat.

(** Lines 457-543: the box takes one id, then its pins follow. *)
Definition create_connector_box (is_right : bool) (st : nat * dict nat) (pos_data : Position)
    : nat * dict nat :=
  let '(cell_id, pin_ids) := st in
  fold_left (register_pin is_right (pos_module pos_data) (pos_connector pos_data))
            (pos_pins pos_data) (S cell_id, pin_ids).

(** Lines 546-551. *)
Definition create_boxes (is_right : bool) (positions : dict Position) (st : nat * dict nat)
    : nat * dict nat :=
  fold_left
    (fun st key =>
       match Dict.get positions key with
       | Some pos_data => create_connector_box is_right st pos_data
       | None => st
       end)
    (sorted_str (keys positions)) st.

(** *** Cumulative lane offsets (lines 558-582) *)

(** Lines 563-572; the state is [(left_connector_offsets, current_left_offset)]. *)
Definition left_offset_step (left_pos : dict Position) (mod_name : string)
    (st : dict Z * Z) (conn_name : string) : dict Z * Z :=
  let '(offsets, current_left_offset) := st in
  let key := conn_key mod_name conn_name in
  match Dict.get left_pos key with
  | None => st
  | Some p =>
      (Dict.set offsets key current_left_offset,
       current_left_offset + Z.of_nat (List.length (pos_pins p)) * spacing + spacing)
  end.

(** Lines 561-572 over the modules [order]. *)
Definition left_offsets_loop (ix : Index) (left_pos : dict Position) (order : list string)
    (st : dict Z * Z) : dict Z * Z :=
  fold_left
    (fun st mod_name =>
       fold_left (left_offset_step left_pos mod_name)
                 (sorted_connectors (left_connectors ix) mod_name) st)
    order st.

(** Lines 579-582; the state is [(right_connector_offsets, current_right_offset)]. *)
Definition right_offset_step (right_pos : dict Position) (st : dict Z * Z) (right_key : string)
    : dict Z * Z :=
  let '(offsets, current_right_offset) := st in
  (Dict.set offsets right_key current_right_offset,
   current_right_offset
   + Z.of_nat (List.length (pos_pins (get_or (mkPos 0 0 0 0 [] "" "") right_pos right_key))) * spacing
   + spacing).

(** Lines 578-582 over the keys [ks]. *)
Definition right_offsets_loop (right_pos : dict Position) (ks : list string) (st : dict Z * Z)
    : dict Z * Z :=
  fold_left (right_offset_step right_pos) ks st.

(** *** Wire router (lines 585-666) *)

Record Wire : Type := mkWire {
  w_edge_id : nat;
  w_row_idx : nat;
  w_source : nat;
  w_target : nat;
  w_points : list (Z * Z)
}.

(** Lines 610-614: the first pin, counted from [idx], one of whose
    connections carries [row_idx]. *)
Fixpoint find_pin_idx (pins : list PinData) (row_idx : nat) (idx : nat) : option nat :=
  match pins with
  | [] => None
  | p :: t =>
      if existsb (fun c => Nat.eqb (pc_row_idx c) row_idx) (pd_connections p)
      then Some idx
      else find_pin_idx t row_idx (S idx)
  end.

Record Boxes : Type := mkBoxes {
  b_left : dict Position;
  b_right : dict Position;
  b_pin_ids : dict nat;
  b_left_offsets : dict Z;
  b_right_offsets : dict Z
}.

Definition left_pin_idx (b : Boxes) (conn : Connection) : option nat :=
  match Dict.get (b_left b) (left_key_of conn) with
  | Some left_pos => find_pin_idx (pos_pins left_pos) (row_idx conn) 0
  | None => None
  end.

Definition right_pin_idx (b : Boxes) (conn : Connection) : option nat :=
  match Dict.get (b_right b) (right_key_of conn) with
  | Some right_pos => find_pin_idx (pos_pins right_pos) (row_idx conn) 0
  | None => None
  end.

(** Lines 586-666 for one connection; [None] stands for [continue].  A pin
    id is [str(cell_id)], never empty, so [not source_id] only holds when
    the lookup in [pin_ids] fails. *)
Definition route (b : Boxes) (cell_id : nat) (conn : Connection) : option Wire :=
  match Dict.get (b_left b) (left_key_of conn), Dict.get (b_right b) (right_key_of conn) with
  | Some left_pos, Some right_pos =>
      match Dict.get (b_pin_ids b) (pin_id_key false (mod1 conn) (conn1 conn) (row_idx conn)),
            Dict.get (b_pin_ids b) (pin_id_key true (mod2 conn) (conn2 conn) (row_idx conn)) with
      | Some source_id, Some target_id =>
          match left_pin_idx b conn, right_pin_idx b conn with
          | Some li, Some ri =>
              let left_pin_y := pos_y left_pos + pin_start_y + Z.of_nat li * pin_height in
              let right_pin_y := pos_y right_pos + pin_start_y + Z.of_nat ri * pin_height in
              let left_pin_x := pos_x left_pos + pos_width left_pos + 5 in
              let right_pin_x := pos_x right_pos - 5 in
              let left_connector_base := get_or 0 (b_left_offsets b) (left_key_of conn) in
              let right_connector_base := get_or 0 (b_right_offsets b) (right_key_of conn) in
              let left_offset_x :=
                left_pin_x + base_offset + left_connector_base + Z.of_nat li * spacing in
              let right_offset_x :=
                right_pin_x - base_offset - right_connector_base - Z.of_nat ri * spacing in
              Some (mkWire cell_id (row_idx conn) source_id target_id
                      [(left_offset_x, left_pin_y + 4);
                       (left_offset_x, right_pin_y + 4);
                       (right_offset_x, right_pin_y + 4)])
          | _, _ => None
          end
      | _, _ => None
      end
  | _, _ => None
  end.

(** Lines 585-666: each wire drawn takes the next cell id. *)
Definition route_step (b : Boxes) (st : nat * list Wire) (conn : Connection) : nat * list Wire :=
  let '(cell_id, wires) := st in
  match route b cell_id conn with
  | Some w => (S cell_id, wires ++ [w])
  | None => st
  end.

(** The x of the first waypoint: the lane in which the wire leaves its
    source connector. *)
Definition exit_x (w : Wire) : Z :=
  match w_points w with
  | (x, _) :: _ => x
  | [] => 0
  end.

(** *** The whole run *)

Record Diagram : Type := mkDiagram {
  d_boxes : Boxes;
  d_wires : list Wire
}.

(** Boxes, pin ids and lane offsets of an index (lines 128-582). *)
Definition boxes_of (ix : Index) : Boxes :=
  let order := sorted_left_modules ix in
  let l := layout ix in
  let '(cell_id, ids) := create_boxes false (left_positions l) (2%nat, []) in
  let '(_, ids') := create_boxes true (right_positions l) (cell_id, ids) in
  mkBoxes (left_positions l) (right_positions l) ids'
          (fst (left_offsets_loop ix (left_positions l) order ([], 0)))
          (fst (right_offsets_loop (right_positions l) (keys (right_positions l)) ([], 0))).

(** The cell id the first wire gets. *)
Definition first_edge_id (ix : Index) : nat :=
  let l := layout ix in
  fst (create_boxes true (right_positions l) (create_boxes false (left_positions l) (2%nat, []))).

Definition draw (ix : Index) : Diagram :=
  let b := boxes_of ix in
  mkDiagram b (snd (fold_left (route_step b) (connections ix) (first_edge_id ix, []))).

Definition MSG_MISSING (missing : list string) : string :=
  "Faltan columnas requeridas: " ++ PyStr.join ", " missing.

Definition MSG_EMPTY : string :=
  "No hay filas válidas después de filtrar. Verifica que tu Excel tenga valores en Pin1 y Pin2.".

(** [generate_drawio_diagram] from the sheet that was read to the diagram
    that is written: [inl msg] is [raise ValueError(msg)], which leaves the
    function before line 690, the only place that writes a file; [inr d] is
    the diagram saved there. *)
Definition generate_drawio_diagram (df : DataFrame) : string + Diagram :=
  match missing_cols df with
  | _ :: _ => inl (MSG_MISSING (missing_cols df))
  | [] =>
      match filter_rows (rows df) with
      | [] => inl MSG_EMPTY
      | rs => inr (draw (build_index rs))
      end
  end.

End Layout.

(** The files a run leaves behind. *)
Definition files_written (result : string + Diagram) : list Diagram :=
  match result with
  | inl _ => []
  | inr d => [d]
  end.

(* ================================================================== *)
(** ** Notions used to state the properties *)

(** *** The order of floats

    A float that is not a NaN is ranked by its class (minus infinity,
    negative, zero, positive, plus infinity), then its exponent, then its
    mantissa, the last two negated for a negative float; [SFcompare] is the
    lexicographic comparison of these ranks. *)
Definition rank1 (x : spec_float) : Z :=
  match x with
  | S754_infinity true => -2
  | S754_finite true _ _ => -1
  | S754_zero _ | S754_nan => 0
  | S754_finite false _ _ => 1
  | S754_infinity false => 2
  end.

Definition rank2 (x : spec_float) : Z :=
  match x with
  | S754_finite true _ e => - e
  | S754_finite false _ e => e
  | _ => 0
  end.

Definition rank3 (x : spec_float) : Z :=
  match x with
  | S754_finite true m _ => - Zpos m
  | S754_finite false m _ => Zpos m
  | _ => 0
  end.

Definition rank_lt (x y : spec_float) : Prop :=
  rank1 x < rank1 y \/
  (rank1 x = rank1 y /\ (rank2 x < rank2 y \/ (rank2 x = rank2 y /\ rank3 x < rank3 y))).

Definition rank_eq (x y : spec_float) : Prop :=
  rank1 x = rank1 y /\ rank2 x = rank2 y /\ rank3 x = rank3 y.

Definition key_ok (k : SortKey) : Prop :=
  match k with
  | KNum x => is_nan x = false
  | KStr _ => True
  end.

(** *** The pin order of the specification

    [pin_le float a b]: label [a] may stand before label [b].  A label that
    parses as a number stands before one that does not; two numbers stand
    in ascending numeric order; two other labels in ascending lexical
    order. *)
Definition pin_le (float : string -> option spec_float) (a b : string) : Prop :=
  match float a, float b with
  | Some x, Some y => SFleb x y = true
  | Some _, None => True
  | None, Some _ => False
  | None, None => String.leb a b = true
  end.

(** No label of the list parses to a NaN. *)
Definition nan_free (float : string -> option spec_float) (pins : list string) : Prop :=
  forall pin x, In pin pins -> float pin = Some x -> is_nan x = false.

(* ================================================================== *)
(** ** Sample sheets *)

(** A row all of whose cells are filled. *)
Definition row_of (m1 c1 p1 s1 s2 p2 c2 m2 : string) : Row :=
  mkRow (Val m1) (Val c1) (Val p1) (Val s1) (Val s2) (Val p2) (Val c2) (Val m2).

(** One connector with pins ["3"], ["+nan"], ["1"], listed in this order. *)
Definition nan_pin_rows : list Row :=
  [row_of "ModA" "J1" "3" "SIG_A" "SIG_A" "1" "P1" "ModB";
   row_of "ModA" "J1" "+nan" "SIG_B" "SIG_B" "2" "P1" "ModB";
   row_of "ModA" "J1" "1" "SIG_C" "SIG_C" "3" "P1" "ModB"].

(** Scenario E: pins ["1"] to ["10"] and ["SHIELD"], listed out of order. *)
Definition shield_rows : list Row :=
  map (fun p => row_of "ModA" "J1" p "SIG" "SIG" p "P1" "ModB")
      ["SHIELD"; "10"; "9"; "2"; "1"; "3"; "8"; "4"; "7"; "5"; "6"].

(** The pins dictionary of one left connector. *)
Definition left_pins (ix : Index) (m c : string) : PinsDict :=
  get_or [] (get_or [] (left_connectors ix) m) c.

(* ================================================================== *)
(** ** The centre of mass and the module order, as specified *)

(** The elements of a list in the order of their first appearance. *)
Fixpoint first_seen (l : list string) : list string :=
  match l with
  | [] => []
  | x :: t => x :: filter (fun y => negb (String.eqb y x)) (first_seen t)
  end.

(** [ks] after one more key has been seen: the way the keys of a
    dictionary grow. *)
Definition see (ks : list string) (k : string) : list string :=
  if existsb (String.eqb k) ks then ks else ks ++ [k].

(** The order in which the modules first appear among the records with a
    valid source signal. *)
Definition first_appearance_order (rs : list Connection) : list string :=
  first_seen (map mod1 (filter (fun r => is_valid_signal (signal1 r)) rs)).

(** The provisional Y of the RIGHT connector of every connection that
    leaves module [m] and whose target is provisionally placed. *)
Definition spec_target_ys (conns : list Connection) (other : dict Position) (m : string) : list Z :=
  flat_map
    (fun conn =>
       if String.eqb (mod1 conn) m then
         match Dict.get other (right_key_of conn) with
         | Some target => [pos_y target]
         | None => []
         end
       else [])
    conns.

(** The specification's centre of mass of a LEFT module: the mean of these
    Y, each connection counting once; 0 when there is none. *)
Definition spec_center_of_mass (conns : list Connection) (other : dict Position) (m : string) : spec_float :=
  match spec_target_ys conns other m with
  | [] => float_zero
  | ys => truediv (fold_right Z.add 0 ys) (Z.of_nat (List.length ys))
  end.

(** Two modules listed against the alphabetical order of their targets:
    ModA is wired to ModZ, ModB to ModY. *)
Definition crossing_rows : list Row :=
  [row_of "ModA" "J1" "1" "SIG_A" "SIG_A" "1" "P1" "ModZ";
   row_of "ModB" "J1" "1" "SIG_B" "SIG_B" "1" "P1" "ModY"].

(** A row with "not connected" on both ends, followed by a wired row. *)
Definition nc_rows : list Row :=
  [row_of "ModA" "J1" "1" " NC " "n/c" "1" "P1" "ModB";
   row_of "ModA" "J1" "2" "VCC" "VCC" "2" "P1" "ModB"].

(** Scenario B: target signal ["NC"], source signal ["GPIO3"]. *)
Definition stub_rows : list Row :=
  [row_of "ModA" "J1" "1" "GPIO3" "NC" "1" "P1" "ModB"].

(** A sheet with a pin that reads ["NaN"] between two wired rows. *)
Definition nan_row : Row := row_of "ModA" "J1" " NaN " "VCC" "VCC" "5" "P1" "ModB".

(* ================================================================== *)
(** ** Columns of boxes *)

Definition bottom (p : Position) : Z := pos_y p + pos_height p.

(** Two boxes whose vertical intervals do not cross. *)
Definition apart (p q : Position) : Prop :=
  bottom p <= pos_y q \/ bottom q <= pos_y p.

(** The state of one column while it is being filled, all of it above
    [cursor]: distinct keys, boxes of positive height that end at or above
    the cursor, boxes under different keys apart. *)
Definition column_ok (d : dict Position) (cursor : Z) : Prop :=
  NoDup (keys d) /\
  (forall k p, In (k, p) d -> 0 < pos_height p /\ bottom p <= cursor) /\
  (forall k1 p1 k2 p2, In (k1, p1) d -> In (k2, p2) d -> k1 <> k2 -> apart p1 p2).

(** Both columns are in order above the cursor of the placement loop. *)
Definition layout_ok (st : LayoutState) : Prop :=
  column_ok (left_positions st) (current_y st) /\
  column_ok (right_positions st) (current_y st).

(** A key the loops of lines 331-332 walk over for the LEFT connector
    [left_key]. *)
Definition candidate_key (ix : Index) (left_key : string) (k : string) : Prop :=
  exists rm rc, In rm (connected_right_modules (connections ix) left_key) /\
                In rc (sorted_connectors (right_connectors ix) rm) /\
                k = conn_key rm rc.

(** The invariant of the loops of lines 331-378, started with the RIGHT
    placement [rp0]: the column is in order above [right_start_y], and a
    box is either one of [rp0] or stored under a key the loops walk over. *)
Definition right_loop_inv (ix : Index) (left_key : string) (rp0 : dict Position)
    (st : dict Position * Z) : Prop :=
  column_ok (fst st) (snd st) /\
  (forall k p, In (k, p) (fst st) -> In (k, p) rp0 \/ candidate_key ix left_key k).

(** The test of the specification: sort the placements by Y, then each
    interval must end at or before the start of the next. *)
Definition sort_by_y (l : list Position) : list Position :=
  sorted_key Z.ltb pos_y l.

Fixpoint chained (l : list Position) : Prop :=
  match l with
  | a :: (b :: _) as t => bottom a <= pos_y b /\ chained t
  | _ => True
  end.

Definition no_overlap (d : dict Position) : Prop :=
  chained (sort_by_y (values d)).

(* ================================================================== *)
(** ** The RIGHT boxes placed with a LEFT connector, in closed form *)

(** The (module, connector) pairs walked by lines 331-332, in that order:
    connected RIGHT modules by name, then their connectors by name. *)
Definition right_candidates (ix : Index) (left_key : string) : list (string * string) :=
  flat_map (fun rm => map (pair rm) (sorted_connectors (right_connectors ix) rm))
           (connected_right_modules (connections ix) left_key).

Definition pair_key (c : string * string) : string := conn_key (fst c) (snd c).

(** The first pair under each key. *)
Fixpoint first_by_key (l : list (string * string)) : list (string * string) :=
  match l with
  | [] => []
  | c :: t => c :: filter (fun c' => negb (String.eqb (pair_key c') (pair_key c))) (first_by_key t)
  end.

(** The test of lines 336-349 for one candidate: not yet placed, and wired
    to the LEFT connector [left_key]. *)
Definition to_place (ix : Index) (left_key : string) (rp : dict Position) (c : string * string) : bool :=
  negb (Dict.mem rp (pair_key c)) && has_connection (connections ix) left_key (fst c) (snd c).

(** The connector groups of the connected RIGHT modules that are not yet
    placed and have a connection from the LEFT connector [left_key]. *)
Definition wired_unplaced (ix : Index) (left_key : string) (rp : dict Position) : list (string * string) :=
  first_by_key (filter (to_place ix left_key rp) (right_candidates ix left_key)).

(** All the connector groups of the connected RIGHT modules that are not
    yet placed. *)
Definition all_unplaced (ix : Index) (left_key : string) (rp : dict Position) : list (string * string) :=
  first_by_key
    (filter (fun c => negb (Dict.mem rp (pair_key c))) (right_candidates ix left_key)).

(** RIGHT boxes stacked downward from [y], [connector_padding] apart. *)
Fixpoint stack_right (float : string -> option spec_float) (ix : Index) (y : Z)
    (l : list (string * string)) : dict Position :=
  match l with
  | [] => []
  | c :: t =>
      let box := make_box float (right_connectors ix) right_x y (fst c) (snd c) in
      (pair_key c, box) :: stack_right float ix (y + pos_height box + connector_padding) t
  end.

(** C2 as the specification words it: placing the LEFT connector
    [conn_name] of [mod_name] appends, from the Y of that connector
    downward, every unplaced connector group of every connected RIGHT
    module. *)
Definition all_groups_coplaced (float : string -> option spec_float) (ix : Index)
    (mod_name conn_name : string) (st : LayoutState) : Prop :=
  right_positions (place_left_connector float ix mod_name st conn_name) =
  right_positions st
    ++ stack_right float ix (current_y st)
         (all_unplaced ix (conn_key mod_name conn_name) (right_positions st)).

(** One RIGHT module with two connectors, each wired to its own LEFT
    connector. *)
Definition shared_module_rows : list Row :=
  [row_of "ModA" "J1" "1" "SIG_A" "SIG_A" "1" "P1" "ModB";
   row_of "ModA" "J2" "1" "SIG_B" "SIG_B" "1" "P2" "ModB"].

(* ================================================================== *)
(** ** Lane bands *)

(** The width of the band of lanes one connector takes:
    [num_pins * spacing + spacing]. *)
Definition lane_band (p : Position) : Z :=
  Z.of_nat (List.length (pos_pins p)) * spacing + spacing.

Definition no_box : Position := mkPos 0 0 0 0 [] "" "".

(** The bands of the boxes stored under the keys [ks], added up. *)
Definition bands_at (positions : dict Position) (ks : list string) : Z :=
  fold_right (fun k acc => lane_band (get_or no_box positions k) + acc) 0 ks.

(** The bands of a list of boxes, added up. *)
Definition bands_of (ps : list Position) : Z :=
  fold_right (fun p acc => lane_band p + acc) 0 ps.

(** The LEFT connectors in the order in which lines 284-285 place them
    and lines 561-562 visit them again. *)
Definition left_order (float : string -> option spec_float) (ix : Index) : list (string * string) :=
  flat_map (fun m => map (pair m) (sorted_connectors (left_connectors ix) m))
           (sorted_left_modules float ix).

(** The state [(left_connector_offsets, current_left_offset)] once the
    connectors [l] have been visited. *)
Definition left_offsets_upto (left_pos : dict Position) (l : list (string * string)) : dict Z * Z :=
  fold_left (fun st c => left_offset_step left_pos (fst c) st (snd c)) l ([], 0).

(** The state [(right_connector_offsets, current_right_offset)] once the
    keys [ks] have been visited. *)
Definition right_offsets_upto (right_pos : dict Position) (ks : list string) : dict Z * Z :=
  right_offsets_loop right_pos ks ([], 0).

(** One LEFT connector with three pins wired to two RIGHT connectors. *)
Definition fan_rows : list Row :=
  [row_of "ModA" "J1" "1" "VCC" "VCC" "1" "P1" "ModB";
   row_of "ModA" "J1" "2" "GND" "GND" "2" "P1" "ModB";
   row_of "ModA" "J1" "3" "CLK" "CLK" "1" "P1" "ModC"].

(** The [i]-th record of [fan_rows] and the [i]-th wire drawn for it. *)
Definition fan_conn (i : nat) : Connection :=
  nth i (iterrows 0 fan_rows) (read_row 0 nan_row).

Definition fan_wire (i : nat) : Wire :=
  nth i (d_wires (draw decimal_float (build_index fan_rows))) (mkWire 0 0 0 0 []).

(** A sheet whose header lacks the two signal columns, and a sheet with
    the full header (some names padded with blanks) whose only row has an
    unusable pin. *)
Definition headless_sheet : DataFrame :=
  mkDF ["Modulo1"; "Conector1"; "Pin1"; "Pin2"; "Conector2"; "Modulo2"] shield_rows.

Definition blank_sheet : DataFrame :=
  mkDF [" Modulo1"; "Conector1 "; "Pin1"; "Señal1"; "Señal2"; "Pin2"; "Conector2"; "Modulo2"]
       [nan_row].

(* ================================================================== *)
(** ** The index in closed form *)

(** A record with a valid signal on both ends. *)
Definition wired (r : Connection) : bool :=
  is_valid_signal (signal1 r) && is_valid_signal (signal2 r).

(** The entries that the records [rs] leave, in their own order, at pin
    [p] of connector [c] of module [m] on the LEFT, resp. on the RIGHT. *)
Definition left_entries (rs : list Connection) (m c p : string) : list PinConn :=
  map (fun r => mkPinConn (signal1 r) (row_idx r))
      (filter (fun r => is_valid_signal (signal1 r)
                        && (String.eqb m (mod1 r) && String.eqb c (conn1 r) && String.eqb p (pin1 r)))
              rs).

Definition right_entries (rs : list Connection) (m c p : string) : list PinConn :=
  map (fun r => mkPinConn (signal2 r) (row_idx r))
      (filter (fun r => is_valid_signal (signal2 r)
                        && (String.eqb m (mod2 r) && String.eqb c (conn2 r) && String.eqb p (pin2 r)))
              rs).

(* ================================================================== *)
(** ** Where a box comes from *)

(** The box [p], stored under [k], is the box of a connector of the index
    [d], drawn in the column at [x], at or below the top margin. *)
Definition is_box_of (float : string -> option spec_float) (d : ModsDict) (x : Z)
    (k : string) (p : Position) : Prop :=
  exists m c y,
    In m (keys d) /\ In c (keys (get_or [] d m)) /\ margin_y <= y /\
    k = conn_key m c /\ p = make_box float d x y m c.

Definition boxes_from (float : string -> option spec_float) (d : ModsDict) (x : Z)
    (positions : dict Position) : Prop :=
  forall k p, In (k, p) positions -> is_box_of float d x k p.

Definition layout_sound (float : string -> option spec_float) (ix : Index) (st : LayoutState) : Prop :=
  boxes_from float (left_connectors ix) margin_x (left_positions st) /\
  boxes_from float (right_connectors ix) right_x (right_positions st) /\
  margin_y <= current_y st.

(** Every pin of every connector of [d] lists at least one record. *)
Definition pins_nonempty (d : ModsDict) : Prop :=
  forall m c p, In p (keys (get_or [] (get_or [] d m) c)) -> pins_at d m c p <> [].

(** The entry shown for a pin: the head of its list, every other entry
    coming from a later row. *)
Definition shows_first_row (pd : PinData) : Prop :=
  exists e rest,
    pd_connections pd = e :: rest /\ pd_signal pd = pc_signal e /\
    Forall (fun e' => (pc_row_idx e < pc_row_idx e')%nat) rest.

(** One LEFT pin named by two rows with different signal names. *)
Definition shared_pin_rows : list Row :=
  [row_of "ModA" "J1" "1" "VCC" "VCC" "1" "P1" "ModB";
   row_of "ModA" "J1" "1" "VDD" "VDD" "1" "P1" "ModC"].

(* ================================================================== *)
(** ** Lanes and cell ids *)

(** The x of the last waypoint: the lane in which the wire reaches its
    target connector. *)
Definition entry_x (w : Wire) : Z :=
  match w_points w with
  | [_; _; (x, _)] => x
  | _ => 0
  end.

(** The lane offsets handed out so far: the band of every connector starts
    at or after 0 and ends at or before the counter, and the bands of two
    connectors do not cross. *)
Definition lanes_ok (positions : dict Position) (offsets : dict Z) (counter : Z) : Prop :=
  0 <= counter /\
  NoDup (keys offsets) /\
  (forall k v, In (k, v) offsets ->
               0 <= v /\ v + lane_band (get_or no_box positions k) <= counter) /\
  (forall k1 v1 k2 v2, In (k1, v1) offsets -> In (k2, v2) offsets -> k1 <> k2 ->
     v1 + lane_band (get_or no_box positions k1) <= v2
     \/ v2 + lane_band (get_or no_box positions k2) <= v1).

(** A wire drawn between the boxes [lp] and [rp]: three waypoints, the
    first two in one lane right of the LEFT column, the last two at one
    height, the last one left of the RIGHT column; the first height inside
    the span of [lp], the last inside the span of [rp]. *)
Definition orthogonal_between (lp rp : Position) (w : Wire) : Prop :=
  exists x1 y1 x2 y2,
    w_points w = [(x1, y1); (x1, y2); (x2, y2)] /\
    325 <= x1 /\ x2 <= 705 /\
    pos_y lp < y1 < bottom lp /\ pos_y rp < y2 < bottom rp.

(* ================================================================== *)
(** ** Names without a colon *)

(** [':' in s]. *)
Fixpoint has_colon (s : string) : bool :=
  match s with
  | EmptyString => false
  | String c t => Ascii.eqb c ":" || has_colon t
  end.

(** No module name of the records contains a colon. *)
Definition colon_free (rs : list Connection) : Prop :=
  forall r, In r rs -> has_colon (mod1 r) = false /\ has_colon (mod2 r) = false.

(* ================================================================== *)
(** ** Signal colours (lines 138-169) *)

(** [signal_colors], in the order of the dictionary literal. *)
Definition signal_colors : dict string :=
  [("power", "#e74c3c"); ("gnd", "#34495e"); ("ground", "#34495e"); ("vcc", "#e74c3c");
   ("vdd", "#e74c3c"); ("5v", "#e74c3c"); ("3v3", "#e74c3c"); ("i2c", "#3498db");
   ("spi", "#9b59b6"); ("uart", "#2ecc71"); ("gpio", "#f39c12"); ("adc", "#e67e22");
   ("pwm", "#1abc9c"); ("can", "#16a085"); ("data", "#8e44ad"); ("clk", "#d35400");
   ("clock", "#d35400"); ("reset", "#c0392b"); ("int", "#27ae60")].

Definition default_colors : list string :=
  ["#3498db"; "#e74c3c"; "#2ecc71"; "#f39c12"; "#9b59b6";
   "#1abc9c"; "#e67e22"; "#95a5a6"; "#16a085"; "#d35400"].

(** [sub in s] on strings. *)
Fixpoint contains (sub s : string) : bool :=
  String.prefix sub s
  || match s with
     | EmptyString => false
     | String _ t => contains sub t
     end.

(** Lines 160-169.  The function is defined in the source but never
    called: every wire is drawn black (line 603). *)
Definition get_signal_color (signal_name : string) (row_idx : nat) : string :=
  let signal_lower := PyStr.lower signal_name in
  match find (fun kc => contains (fst kc) signal_lower) signal_colors with
  | Some kc => snd kc
  | None => nth (row_idx mod List.length default_colors) default_colors ""
  end.

(** A sheet of one wired row under the full header. *)
Definition one_row_sheet : DataFrame :=
  mkDF ["Modulo1"; "Conector1"; "Pin1"; "Señal1"; "Señal2"; "Pin2"; "Conector2"; "Modulo2"]
       stub_rows.

(** The box of ModA:J1 drawn for [shared_pin_rows], and its only pin. *)
Definition shared_box : Position :=
  get_or no_box (b_left (d_boxes (draw decimal_float (build_index shared_pin_rows)))) "ModA:J1".

Definition shared_pin : PinData :=
  nth 0 (pos_pins shared_box) (mkPinData "" "" []).

(* ================================================================== *)
(** * Part II: properties *)

(** ** Strings *)

Lemma is_space_lower_char (c : ascii) : PyStr.is_space (PyStr.lower_char c) = PyStr.is_space c.
Proof. destruct c as [[] [] [] [] [] [] [] []]; reflexivity. Qed.

Lemma lstrip_lower (s : string) : PyStr.lstrip (PyStr.lower s) = PyStr.lower (PyStr.lstrip s).
Proof.
  induction s as [|c t IH]; simpl; [reflexivity|].
  rewrite is_space_lower_char. destruct (PyStr.is_space c); [exact IH | reflexivity].
Qed.

Lemma rstrip_lower (s : string) : PyStr.rstrip (PyStr.lower s) = PyStr.lower (PyStr.rstrip s).
Proof.
  induction s as [|c t IH]; simpl; [reflexivity|].
  rewrite IH, is_space_lower_char.
  destruct (PyStr.rstrip t); simpl; [destruct (PyStr.is_space c)|]; reflexivity.
Qed.

(** Trimming and lowercasing commute. *)
Lemma strip_lower (s : string) : PyStr.strip (PyStr.lower s) = PyStr.lower (PyStr.strip s).
Proof. unfold PyStr.strip. now rewrite lstrip_lower, rstrip_lower. Qed.

Lemma existsb_eqb_In (x : string) (l : list string) :
  existsb (String.eqb x) l = true <-> In x l.
Proof.
  rewrite existsb_exists. split.
  - intros [y [Hy He]]. apply String.eqb_eq in He. now subst.
  - intros H. exists x. split; [assumption | apply String.eqb_refl].
Qed.

(** The classifier of lines 72-79 is the specification's: a signal is
    rejected exactly when its trimmed, lowercased form is empty or one of
    the eight "not connected" words. *)
Lemma is_valid_signal_spec (s : string) :
  is_valid_signal s = false <-> spec_invalid_signal s.
Proof.
  unfold is_valid_signal, spec_invalid_signal. cbv zeta.
  rewrite strip_lower.
  destruct (String.eqb_spec s "") as [->|Hne].
  - split; [intros _; left; reflexivity | reflexivity].
  - destruct (existsb (String.eqb (PyStr.lower (PyStr.strip s))) NC_WORDS) eqn:E.
    + apply existsb_eqb_In in E. split; [intros _ | reflexivity].
      destruct E as [E|E]; [left; now symmetry | right; exact E].
    + split; [discriminate|]. intros H. exfalso.
      assert (In (PyStr.lower (PyStr.strip s)) NC_WORDS) as Hin
        by (destruct H as [H|H]; [left; now symmetry | right; exact H]).
      apply existsb_eqb_In in Hin. congruence.
Qed.

(** ** Dictionaries *)

Section DictFacts.
Context {V : Type}.
Implicit Types (d : dict V) (k : string) (v : V).

Lemma get_set d k v k' :
  Dict.get (Dict.set d k v) k' = if String.eqb k' k then Some v else Dict.get d k'.
Proof.
  induction d as [|[k0 v0] t IH]; simpl.
  - reflexivity.
  - destruct (String.eqb_spec k k0) as [->|Hk]; simpl.
    + destruct (String.eqb_spec k' k0); reflexivity.
    + rewrite IH. destruct (String.eqb_spec k' k0) as [->|]; [|reflexivity].
      destruct (String.eqb_spec k0 k); [congruence | reflexivity].
Qed.

Lemma get_set_same d k v : Dict.get (Dict.set d k v) k = Some v.
Proof. now rewrite get_set, String.eqb_refl. Qed.

Lemma get_In d k v : Dict.get d k = Some v -> In (k, v) d.
Proof.
  induction d as [|[k0 v0] t IH]; simpl; [discriminate|].
  destruct (String.eqb_spec k k0) as [->|]; intros H.
  - left. congruence.
  - right. auto.
Qed.

Lemma get_None d k : Dict.get d k = None <-> ~ In k (keys d).
Proof.
  induction d as [|[k0 v0] t IH]; simpl.
  - tauto.
  - destruct (String.eqb_spec k k0) as [->|Hne].
    + split; [discriminate | intros H; exfalso; apply H; now left].
    + rewrite IH. unfold keys. simpl. split; intros H; [intros [E|E]; [congruence | tauto] | tauto].
Qed.

Lemma In_get d k v : NoDup (keys d) -> In (k, v) d -> Dict.get d k = Some v.
Proof.
  induction d as [|[k0 v0] t IH]; simpl; [tauto|].
  intros Hnd [E|Hin].
  - inversion E; subst. now rewrite String.eqb_refl.
  - inversion Hnd as [|? ? Hnot Hnd']; subst.
    destruct (String.eqb_spec k k0) as [->|].
    + exfalso. apply Hnot. apply (in_map fst) in Hin. exact Hin.
    + auto.
Qed.

Lemma keys_set d k v :
  keys (Dict.set d k v) = if Dict.mem d k then keys d else keys d ++ [k].
Proof.
  unfold Dict.mem. induction d as [|[k0 v0] t IH]; simpl; [reflexivity|].
  destruct (String.eqb_spec k k0) as [->|Hne]; simpl; [reflexivity|].
  unfold keys in *. rewrite IH. now destruct (Dict.get t k).
Qed.

Lemma mem_true d k : Dict.mem d k = true <-> In k (keys d).
Proof.
  unfold Dict.mem. destruct (Dict.get d k) eqn:E.
  - split; [intros _ | reflexivity]. apply get_In in E. now apply (in_map fst) in E.
  - apply get_None in E. split; [discriminate | tauto].
Qed.

Lemma mem_false d k : Dict.mem d k = false <-> ~ In k (keys d).
Proof. rewrite <- mem_true. now destruct (Dict.mem d k). Qed.

Lemma NoDup_set d k v : NoDup (keys d) -> NoDup (keys (Dict.set d k v)).
Proof.
  intros Hnd. rewrite keys_set. destruct (Dict.mem d k) eqn:E; [assumption|].
  apply mem_false in E. apply NoDup_app; [assumption | repeat constructor; intros [] | ].
  intros x Hx [<-|[]]. contradiction.
Qed.

(** What [d[k] = v] leaves in the dictionary. *)
Lemma In_set d k v k' v' :
  NoDup (keys d) ->
  In (k', v') (Dict.set d k v) -> (k' = k /\ v' = v) \/ (k' <> k /\ In (k', v') d).
Proof.
  intros Hnd Hin.
  pose proof (In_get _ _ _ (NoDup_set d k v Hnd) Hin) as Hg.
  rewrite get_set in Hg. destruct (String.eqb_spec k' k) as [->|Hne].
  - left. split; [reflexivity | congruence].
  - right. split; [assumption | now apply get_In].
Qed.

Lemma In_set_new d k v : In (k, v) (Dict.set d k v).
Proof. apply get_In, get_set_same. Qed.

Lemma In_set_old d k v k' v' :
  k' <> k -> In (k', v') d -> NoDup (keys d) -> In (k', v') (Dict.set d k v).
Proof.
  intros Hne Hin Hnd. apply get_In. rewrite get_set.
  destruct (String.eqb_spec k' k); [contradiction | now apply In_get].
Qed.

(** A fresh key is appended. *)
Lemma set_fresh d k v : Dict.mem d k = false -> Dict.set d k v = d ++ [(k, v)].
Proof.
  unfold Dict.mem. induction d as [|[k0 v0] t IH]; simpl; [reflexivity|].
  destruct (String.eqb_spec k k0) as [->|Hne]; [discriminate|].
  intros H. now rewrite IH.
Qed.

End DictFacts.

(** ** The topology index *)

Lemma get_or_set {V : Type} (dflt : V) (d : dict V) (k k' : string) (v : V) :
  get_or dflt (Dict.set d k v) k' = if String.eqb k' k then v else get_or dflt d k'.
Proof. unfold get_or. rewrite get_set. now destruct (String.eqb k' k). Qed.

(** An [append] reaches one pin only. *)
Lemma pins_at_add_pin (d : ModsDict) (m c p : string) (e : PinConn) (m' c' p' : string) :
  pins_at (add_pin d m c p e) m' c' p' =
  if String.eqb m' m && String.eqb c' c && String.eqb p' p
  then pins_at d m' c' p' ++ [e]
  else pins_at d m' c' p'.
Proof.
  unfold pins_at, add_pin. rewrite get_or_set.
  destruct (String.eqb_spec m' m) as [->|]; simpl; [|reflexivity].
  rewrite get_or_set.
  destruct (String.eqb_spec c' c) as [->|]; simpl; [|reflexivity].
  rewrite get_or_set.
  destruct (String.eqb_spec p' p) as [->|]; reflexivity.
Qed.

Lemma keys_add_pin (d : ModsDict) (m c p : string) (e : PinConn) :
  keys (add_pin d m c p e) = if Dict.mem d m then keys d else keys d ++ [m].
Proof. unfold add_pin. apply keys_set. Qed.

Lemma index_from_app (ix : Index) (l1 l2 : list Connection) :
  index_from ix (l1 ++ l2) = index_from (index_from ix l1) l2.
Proof. apply fold_left_app. Qed.

(** Where the entries of the left index come from. *)
Lemma left_sound (rs : list Connection) (ix : Index) (m c p : string) (e : PinConn) :
  In e (pins_at (left_connectors (index_from ix rs)) m c p) ->
  In e (pins_at (left_connectors ix) m c p) \/
  exists r, In r rs /\ is_valid_signal (signal1 r) = true /\
            e = mkPinConn (signal1 r) (row_idx r) /\
            mod1 r = m /\ conn1 r = c /\ pin1 r = p.
Proof.
  revert ix. induction rs as [|r t IH]; intros ix; simpl; [tauto|].
  intros H. destruct (IH _ H) as [H0|[r' [Hin Hr']]].
  - unfold index_row in H0.
    destruct (is_valid_signal (signal1 r)) eqn:V1, (is_valid_signal (signal2 r)) eqn:V2;
      simpl in H0; try (now left).
    all: rewrite pins_at_add_pin in H0;
      destruct (String.eqb_spec m (mod1 r)), (String.eqb_spec c (conn1 r)),
               (String.eqb_spec p (pin1 r)); simpl in H0; try (now left);
      apply in_app_or in H0; destruct H0 as [H0|[<-|[]]]; [now left|];
      right; exists r; subst; intuition.
  - right. exists r'. intuition.
Qed.

Lemma right_sound (rs : list Connection) (ix : Index) (m c p : string) (e : PinConn) :
  In e (pins_at (right_connectors (index_from ix rs)) m c p) ->
  In e (pins_at (right_connectors ix) m c p) \/
  exists r, In r rs /\ is_valid_signal (signal2 r) = true /\
            e = mkPinConn (signal2 r) (row_idx r) /\
            mod2 r = m /\ conn2 r = c /\ pin2 r = p.
Proof.
  revert ix. induction rs as [|r t IH]; intros ix; simpl; [tauto|].
  intros H. destruct (IH _ H) as [H0|[r' [Hin Hr']]].
  - unfold index_row in H0.
    destruct (is_valid_signal (signal1 r)) eqn:V1, (is_valid_signal (signal2 r)) eqn:V2;
      simpl in H0; try (now left).
    all: rewrite pins_at_add_pin in H0;
      destruct (String.eqb_spec m (mod2 r)), (String.eqb_spec c (conn2 r)),
               (String.eqb_spec p (pin2 r)); simpl in H0; try (now left);
      apply in_app_or in H0; destruct H0 as [H0|[<-|[]]]; [now left|];
      right; exists r; subst; intuition.
  - right. exists r'. intuition.
Qed.

Lemma connections_sound (rs : list Connection) (ix : Index) (conn : Connection) :
  In conn (connections (index_from ix rs)) ->
  In conn (connections ix) \/
  (In conn rs /\ is_valid_signal (signal1 conn) = true /\ is_valid_signal (signal2 conn) = true).
Proof.
  revert ix. induction rs as [|r t IH]; intros ix; simpl; [tauto|].
  intros H. destruct (IH _ H) as [H0|[Hin Hr]]; [|right; tauto].
  unfold index_row in H0.
  destruct (is_valid_signal (signal1 r)) eqn:V1, (is_valid_signal (signal2 r)) eqn:V2;
    simpl in H0; try (now left).
  apply in_app_or in H0. destruct H0 as [H0|[<-|[]]]; [now left | right; tauto].
Qed.

(** Entries are only ever appended. *)
Lemma left_mono (rs : list Connection) (ix : Index) (m c p : string) (e : PinConn) :
  In e (pins_at (left_connectors ix) m c p) ->
  In e (pins_at (left_connectors (index_from ix rs)) m c p).
Proof.
  revert ix. induction rs as [|r t IH]; intros ix H; simpl; [assumption|].
  apply IH. unfold index_row.
  destruct (is_valid_signal (signal1 r)), (is_valid_signal (signal2 r)); simpl; try assumption.
  all: rewrite pins_at_add_pin; destruct (_ && _); [apply in_or_app; now left | assumption].
Qed.

Lemma right_mono (rs : list Connection) (ix : Index) (m c p : string) (e : PinConn) :
  In e (pins_at (right_connectors ix) m c p) ->
  In e (pins_at (right_connectors (index_from ix rs)) m c p).
Proof.
  revert ix. induction rs as [|r t IH]; intros ix H; simpl; [assumption|].
  apply IH. unfold index_row.
  destruct (is_valid_signal (signal1 r)), (is_valid_signal (signal2 r)); simpl; try assumption.
  all: rewrite pins_at_add_pin; destruct (_ && _); [apply in_or_app; now left | assumption].
Qed.

Lemma left_complete (rs : list Connection) (ix : Index) (r : Connection) :
  In r rs -> is_valid_signal (signal1 r) = true ->
  In (mkPinConn (signal1 r) (row_idx r))
     (pins_at (left_connectors (index_from ix rs)) (mod1 r) (conn1 r) (pin1 r)).
Proof.
  revert ix. induction rs as [|r0 t IH]; intros ix Hin V; simpl in *; [contradiction|].
  destruct Hin as [->|Hin]; [|now apply IH].
  apply left_mono. unfold index_row. rewrite V. simpl.
  rewrite pins_at_add_pin, !String.eqb_refl. simpl. apply in_or_app. right. now left.
Qed.

Lemma right_complete (rs : list Connection) (ix : Index) (r : Connection) :
  In r rs -> is_valid_signal (signal2 r) = true ->
  In (mkPinConn (signal2 r) (row_idx r))
     (pins_at (right_connectors (index_from ix rs)) (mod2 r) (conn2 r) (pin2 r)).
Proof.
  revert ix. induction rs as [|r0 t IH]; intros ix Hin V; simpl in *; [contradiction|].
  destruct Hin as [->|Hin]; [|now apply IH].
  apply right_mono. unfold index_row. rewrite V. simpl.
  destruct (is_valid_signal (signal1 r)); simpl;
    rewrite pins_at_add_pin, !String.eqb_refl; simpl; apply in_or_app; right; now left.
Qed.

(** Row indices are positions in the filtered frame. *)
Lemma iterrows_nth (rs : list Row) (k i : nat) (r : Connection) :
  nth_error (iterrows k rs) i = Some r -> row_idx r = (k + i)%nat.
Proof.
  revert k i. induction rs as [|r0 t IH]; intros k i; simpl.
  - destruct i; discriminate.
  - destruct i as [|i]; simpl.
    + intros E. inversion E. simpl. lia.
    + intros E. rewrite (IH _ _ E). lia.
Qed.

Lemma iterrows_unique (rs : list Row) (i : nat) (r r' : Connection) :
  nth_error (iterrows 0 rs) i = Some r -> In r' (iterrows 0 rs) -> row_idx r' = i -> r' = r.
Proof.
  intros Hr Hin Hi. apply In_nth_error in Hin. destruct Hin as [j Hj].
  pose proof (iterrows_nth _ _ _ _ Hj) as E. simpl in E.
  assert (j = i) by lia. subst j. congruence.
Qed.

Section Properties.

Variable py_float : string -> option spec_float.

(** ** Wires come from connections *)

Lemma route_row_idx (b : Boxes) (n : nat) (conn : Connection) (w : Wire) :
  route b n conn = Some w -> w_row_idx w = row_idx conn.
Proof.
  unfold route. intros H.
  repeat match type of H with
         | match ?x with _ => _ end = _ => destruct x; try discriminate
         end.
  inversion H. reflexivity.
Qed.

Lemma route_loop_sound (b : Boxes) (conns : list Connection) (st : nat * list Wire) (w : Wire) :
  In w (snd (fold_left (route_step b) conns st)) ->
  In w (snd st) \/ exists conn n, In conn conns /\ route b n conn = Some w.
Proof.
  revert st. induction conns as [|c t IH]; intros [n ws]; simpl; [tauto|].
  intros H. destruct (IH _ H) as [H0|[conn [n' [Hin Hr]]]].
  - destruct (route b n c) as [w0|] eqn:E; simpl in H0; [|now left].
    apply in_app_or in H0. destruct H0 as [H0|[<-|[]]]; [now left|].
    right. exists c, n. split; [now left | assumption].
  - right. exists conn, n'. split; [now right | assumption].
Qed.

(** Every wire of the diagram belongs to an entry of [connections]. *)
Lemma wire_has_connection (ix : Index) (w : Wire) :
  In w (d_wires (draw py_float ix)) ->
  exists conn, In conn (connections ix) /\ row_idx conn = w_row_idx w.
Proof.
  unfold draw. simpl. intros H.
  apply route_loop_sound in H. destruct H as [[]|[conn [n [Hin Hr]]]].
  exists conn. split; [assumption | symmetry; eapply route_row_idx; eassumption].
Qed.

(** A row whose two signals are both valid is the only kind that reaches
    [connections]. *)
Lemma connection_row (rs : list Row) (conn : Connection) :
  In conn (connections (build_index rs)) ->
  In conn (iterrows 0 rs) /\
  is_valid_signal (signal1 conn) = true /\ is_valid_signal (signal2 conn) = true.
Proof.
  intros H. apply connections_sound in H. destruct H as [[]|H]. exact H.
Qed.

(** ** Rows without a valid signal on both sides *)



(** ** Errors and filtering *)

Lemma nan_like_not_kept (c : Cell) : nan_like c -> pin_kept c = false.
Proof.
  unfold nan_like, pin_kept. intros H. rewrite H. simpl.
  now rewrite andb_false_r, andb_false_r.
Qed.

Lemma filter_rows_drop (l1 l2 : list Row) (r : Row) :
  row_kept r = false -> filter_rows (l1 ++ r :: l2) = filter_rows (l1 ++ l2).
Proof.
  intros H. unfold filter_rows. rewrite !filter_app. simpl. now rewrite H.
Qed.



(** ** [sorted] *)

Section SortFacts.
Context {A : Type}.
Variable lt : A -> A -> bool.

Lemma insert_sorted_perm (x : A) (l : list A) : Permutation (insert_sorted lt x l) (x :: l).
Proof.
  induction l as [|y t IH]; simpl; [apply Permutation_refl|].
  destruct (lt y x); [|apply Permutation_refl].
  apply perm_trans with (y :: x :: t); [now apply perm_skip | apply perm_swap].
Qed.

Lemma sorted_perm (l : list A) : Permutation (sorted lt l) l.
Proof.
  induction l as [|x t IH]; simpl; [apply perm_nil|].
  apply perm_trans with (x :: sorted lt t); [apply insert_sorted_perm | now apply perm_skip].
Qed.

Lemma In_sorted (x : A) (l : list A) : In x (sorted lt l) <-> In x l.
Proof.
  split; apply Permutation_in; [apply sorted_perm | apply Permutation_sym, sorted_perm].
Qed.

Lemma NoDup_sorted (l : list A) : NoDup l -> NoDup (sorted lt l).
Proof. apply Permutation_NoDup, Permutation_sym, sorted_perm. Qed.

(** Stability at its plainest: when no element is smaller than another,
    nothing moves. *)
Lemma sorted_all_equal (l : list A) :
  (forall x y, In x l -> In y l -> lt x y = false) -> sorted lt l = l.
Proof.
  induction l as [|x t IH]; intros H; simpl; [reflexivity|].
  rewrite IH by (intros; apply H; now right).
  destruct t as [|y t']; simpl; [reflexivity|].
  rewrite H; [reflexivity | right; now left | now left].
Qed.

(** On elements where [lt] is asymmetric and "not greater" is transitive,
    the output is ascending. *)
Variable P : A -> Prop.
Hypothesis lt_asym : forall a b, P a -> P b -> lt a b = true -> lt b a = false.
Hypothesis le_trans :
  forall a b c, P a -> P b -> P c -> lt b a = false -> lt c b = false -> lt c a = false.

Lemma insert_sorted_strongly (x : A) (l : list A) :
  P x -> Forall P l ->
  StronglySorted (fun a b => lt b a = false) l ->
  StronglySorted (fun a b => lt b a = false) (insert_sorted lt x l).
Proof.
  intros Px. induction l as [|y t IH]; intros HP Hs; simpl.
  - constructor; constructor.
  - inversion HP as [|? ? Py HPt]; subst. inversion Hs as [|? ? Hst Hall]; subst.
    destruct (lt y x) eqn:E.
    + constructor; [now apply IH|].
      apply Forall_forall. intros z Hz.
      apply (Permutation_in _ (insert_sorted_perm x t)) in Hz.
      destruct Hz as [<-|Hz]; [now apply lt_asym | ].
      rewrite Forall_forall in Hall. now apply Hall.
    + constructor; [assumption|].
      constructor; [assumption|].
      rewrite Forall_forall in Hall, HPt |- *. intros z Hz.
      apply (le_trans x y z); auto.
Qed.

Lemma sorted_strongly (l : list A) :
  Forall P l -> StronglySorted (fun a b => lt b a = false) (sorted lt l).
Proof.
  induction l as [|x t IH]; intros HP; simpl; [constructor|].
  inversion HP as [|? ? Px HPt]; subst. apply insert_sorted_strongly; [assumption | | now apply IH].
  apply Forall_forall. intros z Hz. apply (proj1 (In_sorted z t)) in Hz.
  revert z Hz. now apply Forall_forall.
Qed.

End SortFacts.

Lemma StronglySorted_weaken {A : Type} (R R' : A -> A -> Prop) (P : A -> Prop) (l : list A) :
  (forall a b, P a -> P b -> R a b -> R' a b) ->
  Forall P l -> StronglySorted R l -> StronglySorted R' l.
Proof.
  intros HR. induction l as [|x t IH]; intros HP Hs; [constructor|].
  inversion HP; subst. inversion Hs as [|? ? Hst Hall]; subst.
  constructor; [auto|].
  rewrite Forall_forall in *. auto.
Qed.

(** ** The order of sort keys *)

Lemma SFcompare_rank (x y : spec_float) :
  is_nan x = false -> is_nan y = false ->
  (SFcompare x y = Some Lt /\ rank_lt x y) \/
  (SFcompare x y = Some Eq /\ rank_eq x y) \/
  (SFcompare x y = Some Gt /\ rank_lt y x).
Proof.
  unfold rank_lt, rank_eq.
  destruct x as [sx|sx| |sx mx ex], y as [sy|sy| |sy my ey]; simpl; try discriminate; intros _ _;
    try destruct sx; try destruct sy; simpl; try (intuition lia).
  - destruct (Z.compare_spec ex ey); try (intuition lia).
    change (PosDef.Pos.compare_cont Eq mx my) with (Pos.compare mx my).
    destruct (Pos.compare_spec mx my); simpl; intuition lia.
  - destruct (Z.compare_spec ex ey); try (intuition lia).
    change (PosDef.Pos.compare_cont Eq mx my) with (Pos.compare mx my).
    destruct (Pos.compare_spec mx my); simpl; intuition lia.
Qed.

Lemma SFltb_rank (x y : spec_float) :
  is_nan x = false -> is_nan y = false -> (SFltb x y = true <-> rank_lt x y).
Proof.
  intros Hx Hy. unfold SFltb.
  destruct (SFcompare_rank x y Hx Hy) as [[-> H]|[[-> H]|[-> H]]];
    unfold rank_lt, rank_eq in *; split; intros; try discriminate; try reflexivity; try assumption; lia.
Qed.

Lemma SFltb_false_rank (x y : spec_float) :
  is_nan x = false -> is_nan y = false -> (SFltb x y = false <-> ~ rank_lt x y).
Proof.
  intros Hx Hy. rewrite <- (SFltb_rank x y Hx Hy). now destruct (SFltb x y).
Qed.

Lemma SFleb_SFltb (x y : spec_float) :
  is_nan x = false -> is_nan y = false -> (SFleb x y = true <-> SFltb y x = false).
Proof.
  intros Hx Hy. unfold SFleb, SFltb.
  destruct (SFcompare_rank x y Hx Hy) as [[-> H]|[[-> H]|[-> H]]];
    destruct (SFcompare_rank y x Hy Hx) as [[-> H']|[[-> H']|[-> H']]];
    unfold rank_lt, rank_eq in *; split; intros; try discriminate; try reflexivity; lia.
Qed.

Lemma ltb_compare (a b : string) : String.ltb a b = true <-> String.compare a b = Lt.
Proof. unfold String.ltb. destruct (String.compare a b); split; congruence. Qed.

Lemma ltb_asym (a b : string) : String.ltb a b = true -> String.ltb b a = false.
Proof.
  unfold String.ltb. rewrite (String.compare_antisym a b).
  destruct (String.compare b a); simpl; congruence.
Qed.

Lemma ltb_negtrans (a b c : string) :
  String.ltb b a = false -> String.ltb c b = false -> String.ltb c a = false.
Proof.
  intros Hba Hcb. destruct (String.ltb c a) eqn:Hca; [|reflexivity]. exfalso.
  apply ltb_compare in Hca. apply String_as_OT.cmp_lt in Hca.
  destruct (String.compare b a) eqn:E.
  - apply String.compare_eq_iff in E. subst b.
    apply String_as_OT.cmp_lt, ltb_compare in Hca. congruence.
  - apply ltb_compare in E. congruence.
  - assert (String.compare a b = Lt) as E'
      by (rewrite String.compare_antisym, E; reflexivity).
    apply String_as_OT.cmp_lt in E'.
    pose proof (String_as_OT.lt_trans _ _ _ Hca E') as Hcb'.
    apply String_as_OT.cmp_lt, ltb_compare in Hcb'. congruence.
Qed.

Lemma leb_ltb (a b : string) : String.leb a b = true <-> String.ltb b a = false.
Proof.
  unfold String.leb, String.ltb. rewrite (String.compare_antisym a b).
  destruct (String.compare b a); simpl; split; congruence.
Qed.

Lemma key_lt_asym (a b : SortKey) :
  key_ok a -> key_ok b -> key_lt a b = true -> key_lt b a = false.
Proof.
  destruct a as [x|s], b as [y|t]; simpl; intros Ha Hb H; try congruence.
  - apply SFltb_false_rank; [assumption..|]. apply SFltb_rank in H; [|assumption..].
    unfold rank_lt in *. lia.
  - now apply ltb_asym.
Qed.

Lemma key_lt_negtrans (a b c : SortKey) :
  key_ok a -> key_ok b -> key_ok c ->
  key_lt b a = false -> key_lt c b = false -> key_lt c a = false.
Proof.
  destruct a as [x|s], b as [y|t], c as [z|u]; simpl; intros Ha Hb Hc H1 H2; try congruence.
  - apply SFltb_false_rank in H1; [|assumption..]. apply SFltb_false_rank in H2; [|assumption..].
    apply SFltb_false_rank; [assumption..|]. unfold rank_lt in *. lia.
  - eapply ltb_negtrans; eassumption.
Qed.

(** ** Pin order *)

Lemma pins_list_labels (pins_dict : PinsDict) :
  map pd_pin (make_pins_list py_float pins_dict) = sorted_pins py_float pins_dict.
Proof.
  unfold make_pins_list. rewrite map_map. simpl. apply map_id.
Qed.

Lemma sort_key_ok (pin : string) :
  (forall x, py_float pin = Some x -> is_nan x = false) -> key_ok (sort_key py_float pin).
Proof.
  unfold sort_key. intros H. destruct (py_float pin) as [x|]; simpl; [now apply H | exact I].
Qed.

Lemma key_le_pin_le (a b : string) :
  key_ok (sort_key py_float a) -> key_ok (sort_key py_float b) ->
  key_lt (sort_key py_float b) (sort_key py_float a) = false -> pin_le py_float a b.
Proof.
  unfold sort_key, pin_le.
  destruct (py_float a) as [x|], (py_float b) as [y|]; simpl; intros Ha Hb H.
  - now apply SFleb_SFltb.
  - exact I.
  - discriminate.
  - now apply leb_ltb.
Qed.


(** ** The order of LEFT modules *)

Lemma mem_keys {V : Type} (d : dict V) (k : string) :
  Dict.mem d k = existsb (String.eqb k) (keys d).
Proof.
  destruct (Dict.mem d k) eqn:E; symmetry.
  - apply existsb_eqb_In. now apply mem_true.
  - apply not_true_is_false. intros H. apply existsb_eqb_In in H.
    apply mem_false in E. contradiction.
Qed.

Lemma keys_set_see {V : Type} (d : dict V) (k : string) (v : V) :
  keys (Dict.set d k v) = see (keys d) k.
Proof. unfold see. now rewrite keys_set, mem_keys. Qed.

Lemma filter_filter {A : Type} (f g : A -> bool) (l : list A) :
  filter f (filter g l) = filter (fun x => g x && f x) l.
Proof.
  induction l as [|x t IH]; simpl; [reflexivity|].
  destruct (g x); simpl; [destruct (f x)|]; now rewrite IH.
Qed.

Lemma filter_all {A : Type} (f : A -> bool) (l : list A) :
  (forall x, In x l -> f x = true) -> filter f l = l.
Proof.
  induction l as [|x t IH]; intros H; simpl; [reflexivity|].
  rewrite H by now left. rewrite IH; [reflexivity | intros; apply H; now right].
Qed.

(** Seeing the elements of [l] one by one appends those not yet known, in
    the order of their first appearance. *)
Lemma fold_see (l ks : list string) :
  fold_left see l ks = ks ++ filter (fun y => negb (existsb (String.eqb y) ks)) (first_seen l).
Proof.
  revert ks. induction l as [|x t IH]; intros ks; simpl; [now rewrite app_nil_r|].
  rewrite IH. unfold see. destruct (existsb (String.eqb x) ks) eqn:E; simpl.
  - f_equal. rewrite filter_filter. apply filter_ext. intros y.
    destruct (String.eqb_spec y x) as [->|]; simpl; [now rewrite E | reflexivity].
  - rewrite <- app_assoc. simpl. do 2 f_equal. rewrite filter_filter.
    apply filter_ext. intros y. rewrite existsb_app. simpl.
    rewrite orb_false_r, negb_orb. apply andb_comm.
Qed.

Lemma fold_see_nil (l : list string) : fold_left see l [] = first_seen l.
Proof. rewrite fold_see. simpl. apply filter_all. reflexivity. Qed.

Lemma In_first_seen (x : string) (l : list string) : In x (first_seen l) <-> In x l.
Proof.
  induction l as [|y t IH]; simpl; [tauto|].
  rewrite filter_In, IH. destruct (String.eqb_spec x y) as [->|Hne]; simpl.
  - intuition.
  - intuition congruence.
Qed.

Lemma first_seen_NoDup (l : list string) : NoDup l -> first_seen l = l.
Proof.
  induction l as [|x t IH]; intros H; simpl; [reflexivity|].
  inversion H as [|? ? Hx Ht]; subst. rewrite (IH Ht). f_equal.
  apply filter_all. intros y Hy. destruct (String.eqb_spec y x) as [->|]; [contradiction | reflexivity].
Qed.

Lemma NoDup_first_seen (l : list string) : NoDup (first_seen l).
Proof.
  induction l as [|x t IH]; simpl; constructor.
  - rewrite filter_In, String.eqb_refl. simpl. intros [_ H]. discriminate.
  - now apply NoDup_filter.
Qed.

(** The modules of the left index, in dictionary order, are the modules of
    the rows with a valid source signal in the order of first appearance. *)
Lemma keys_left_index (rs : list Connection) (ix : Index) :
  keys (left_connectors (index_from ix rs)) =
  fold_left see (map mod1 (filter (fun r => is_valid_signal (signal1 r)) rs))
            (keys (left_connectors ix)).
Proof.
  revert ix. induction rs as [|r t IH]; intros ix; simpl; [reflexivity|].
  rewrite IH. unfold index_row.
  destruct (is_valid_signal (signal1 r)) eqn:V1; simpl.
  - unfold add_pin. now rewrite keys_set_see.
  - destruct (is_valid_signal (signal2 r)); reflexivity.
Qed.

Lemma keys_left_build (rs : list Row) :
  keys (left_connectors (build_index rs)) = first_appearance_order (iterrows 0 rs).
Proof. unfold build_index. rewrite keys_left_index. apply fold_see_nil. Qed.

(** A dictionary filled from a list of keys. *)
Lemma keys_fold_set {V : Type} (g : string -> V) (ks : list string) (d : dict V) :
  keys (fold_left (fun d m => Dict.set d m (g m)) ks d) = fold_left see ks (keys d).
Proof.
  revert d. induction ks as [|k t IH]; intros d; simpl; [reflexivity|].
  now rewrite IH, keys_set_see.
Qed.

Lemma get_or_fold_set {V : Type} (g : string -> V) (z : V) (ks : list string) (d : dict V) :
  (forall m, In m ks -> g m = z) ->
  (forall m, get_or z d m = z) ->
  forall m, get_or z (fold_left (fun d m => Dict.set d m (g m)) ks d) m = z.
Proof.
  revert d. induction ks as [|k t IH]; intros d Hg Hd; simpl; [assumption|].
  apply IH; [intros; apply Hg; now right|].
  intros m. rewrite get_or_set. destruct (String.eqb m k); [apply Hg; now left | apply Hd].
Qed.

(** C10. When no LEFT module is named like a ["module:connector"] key of
    the provisional LEFT placement, the centre of mass computed for every
    LEFT module is 0, and the order in which the LEFT modules are placed
    is the order of their first appearance among the filtered records with
    a valid source signal. *)
Theorem left_order_is_first_appearance (rs : list Row) :
  (forall m, In m (keys (left_connectors (build_index rs))) ->
             Dict.mem (temp_left py_float (build_index rs)) m = false) ->
  (forall m, In m (keys (left_connectors (build_index rs))) ->
             calculate_center_of_mass (connections (build_index rs)) m true
               (temp_left py_float (build_index rs)) (temp_right py_float (build_index rs))
             = float_zero) /\
  sorted_left_modules py_float (build_index rs) = first_appearance_order (iterrows 0 rs).
Proof.
  intros Hkeys.
  assert (Hzero : forall m, In m (keys (left_connectors (build_index rs))) ->
             calculate_center_of_mass (connections (build_index rs)) m true
               (temp_left py_float (build_index rs)) (temp_right py_float (build_index rs))
             = float_zero).
  { intros m Hm. unfold calculate_center_of_mass. now rewrite (Hkeys m Hm). }
  split; [exact Hzero|].
  unfold sorted_left_modules, sorted_key.
  rewrite sorted_all_equal.
  - unfold left_modules. rewrite keys_fold_set, fold_see_nil, keys_left_build.
    apply first_seen_NoDup, NoDup_first_seen.
  - intros x y _ _. unfold left_modules.
    rewrite !(get_or_fold_set _ float_zero); try reflexivity; assumption.
Qed.

(** ** Columns never overlap *)

Lemma fold_left_inv {A B : Type} (I : A -> Prop) (f : A -> B -> A) (l : list B) (a : A) :
  I a -> (forall a b, In b l -> I a -> I (f a b)) -> I (fold_left f l a).
Proof.
  revert a. induction l as [|b t IH]; intros a Ha Hf; simpl; [assumption|].
  apply IH; [apply Hf; [now left | assumption] | intros; apply Hf; [now right | assumption]].
Qed.

Lemma fold_left_ge {B : Type} (f : Z -> B -> Z) (l : list B) (a : Z) :
  (forall a b, a <= f a b) -> a <= fold_left f l a.
Proof.
  intros Hf. revert a. induction l as [|b t IH]; intros a; simpl; [lia|].
  specialize (IH (f a b)). specialize (Hf a b). lia.
Qed.

Lemma fold_left_covers {B : Type} (f : Z -> B -> Z) (l : list B) (a v : Z) (b : B) :
  (forall a b, a <= f a b) -> In b l -> (forall a, v <= f a b) -> v <= fold_left f l a.
Proof.
  intros Hf Hin Hv. revert a. induction l as [|b0 t IH]; intros a; simpl; [destruct Hin|].
  destruct Hin as [->|Hin]; [|now apply IH].
  pose proof (fold_left_ge f t (f a b) Hf). specialize (Hv a). lia.
Qed.

Lemma connector_height_pos (l : list PinData) : 0 < connector_height l.
Proof. unfold connector_height, pin_height. lia. Qed.

Lemma make_box_y (d : ModsDict) (x y : Z) (m c : string) : pos_y (make_box py_float d x y m c) = y.
Proof. reflexivity. Qed.

Lemma make_box_height_pos (d : ModsDict) (x y : Z) (m c : string) :
  0 < pos_height (make_box py_float d x y m c).
Proof. apply connector_height_pos. Qed.

Lemma make_box_bottom (d : ModsDict) (x y : Z) (m c : string) :
  bottom (make_box py_float d x y m c) = y + pos_height (make_box py_float d x y m c).
Proof. reflexivity. Qed.

Lemma column_ok_nil (c : Z) : column_ok [] c.
Proof. repeat split; try constructor; intros; contradiction. Qed.

Lemma column_ok_mono (d : dict Position) (c c' : Z) :
  column_ok d c -> c <= c' -> column_ok d c'.
Proof.
  intros (Hnd & Hb & Ha) Hc. repeat split; try assumption.
  - now apply (Hb k p).
  - specialize (Hb k p H). lia.
Qed.

(** A box put at or below the cursor keeps the column in order. *)
Lemma column_ok_set (d : dict Position) (c : Z) (k : string) (p : Position) (c' : Z) :
  column_ok d c -> c <= pos_y p -> 0 < pos_height p -> bottom p <= c' ->
  column_ok (Dict.set d k p) c'.
Proof.
  intros (Hnd & Hb & Ha) Hy Hh Hc'. unfold bottom in *. split; [now apply NoDup_set|]. split.
  - intros k0 p0 Hin. unfold bottom. apply In_set in Hin; [|assumption].
    destruct Hin as [[-> ->]|[_ Hin]]; [lia|].
    specialize (Hb k0 p0 Hin). lia.
  - intros k1 p1 k2 p2 H1 H2 Hne.
    apply In_set in H1; [|assumption]. apply In_set in H2; [|assumption].
    unfold apart, bottom.
    destruct H1 as [[-> ->]|[_ H1]], H2 as [[-> ->]|[_ H2]].
    + contradiction.
    + specialize (Hb k2 p2 H2). lia.
    + specialize (Hb k1 p1 H1). lia.
    + exact (Ha k1 p1 k2 p2 H1 H2 Hne).
Qed.

(** *** The RIGHT boxes placed next to one LEFT connector *)

Section PlaceRight.
Variables (ix : Index) (left_key : string) (rp0 : dict Position) (y0 : Z).

Lemma place_right_connector_inv (rm rc : string) (st : dict Position * Z) :
  In rm (connected_right_modules (connections ix) left_key) ->
  In rc (sorted_connectors (right_connectors ix) rm) ->
  right_loop_inv ix left_key rp0 st ->
  right_loop_inv ix left_key rp0 (place_right_connector py_float ix left_key rm st rc).
Proof.
  intros Hrm Hrc [Hcol Horig]. destruct st as [rp rsy]. unfold place_right_connector.
  destruct (Dict.mem rp (conn_key rm rc)); [now split|].
  destruct (negb (has_connection (connections ix) left_key rm rc)); [now split|].
  simpl in *. split.
  - apply (column_ok_set rp rsy); [assumption | simpl; lia | apply make_box_height_pos |].
    unfold bottom. simpl. unfold connector_padding. lia.
  - intros k p Hin. destruct Hcol as [Hnd _]. apply In_set in Hin; [|assumption].
    destruct Hin as [[-> _]|[_ Hin]]; [|now apply Horig].
    right. exists rm, rc. auto.
Qed.

Lemma place_right_inv :
  column_ok rp0 y0 ->
  right_loop_inv ix left_key rp0 (place_right py_float ix left_key (rp0, y0)).
Proof.
  intros Hcol. unfold place_right.
  apply fold_left_inv; [split; [assumption | now left]|].
  intros st rm Hrm Hst.
  apply fold_left_inv; [assumption|].
  intros st' rc Hrc Hst'. now apply place_right_connector_inv.
Qed.

Lemma lowest_right_ge (rp : dict Position) (start : Z) :
  start <= lowest_right ix left_key rp start.
Proof.
  unfold lowest_right. apply fold_left_ge. intros a rm. apply fold_left_ge.
  intros a' rc. destruct (Dict.get rp (conn_key rm rc)); lia.
Qed.

Lemma lowest_right_covers (rp : dict Position) (start : Z) (k : string) (p : Position) :
  candidate_key ix left_key k -> Dict.get rp k = Some p ->
  bottom p <= lowest_right ix left_key rp start.
Proof.
  intros [rm [rc [Hrm [Hrc ->]]]] Hget. unfold lowest_right.
  apply (fold_left_covers _ _ _ _ rm); [|assumption|].
  - intros a rm'. apply fold_left_ge. intros a' rc'.
    destruct (Dict.get rp (conn_key rm' rc')); lia.
  - intros a. apply (fold_left_covers _ _ _ _ rc); [|assumption|].
    + intros a' rc'. destruct (Dict.get rp (conn_key rm rc')); lia.
    + intros a'. rewrite Hget. unfold bottom. lia.
Qed.

(** After the RIGHT boxes of a LEFT connector are placed, the lowest bottom
    found by lines 382-389 is below every RIGHT box placed so far. *)
Lemma place_right_below (start : Z) :
  column_ok rp0 y0 -> y0 <= start ->
  column_ok (fst (place_right py_float ix left_key (rp0, y0)))
            (lowest_right ix left_key
               (fst (place_right py_float ix left_key (rp0, y0))) start).
Proof.
  intros Hcol Hstart. destruct (place_right_inv Hcol) as [Hcol' Horig].
  destruct Hcol' as (Hnd & Hb & Ha). split; [assumption|]. split; [|assumption].
  intros k p Hin. split; [now apply (Hb k p)|].
  destruct (Horig k p Hin) as [Hold|Hcand].
  - destruct Hcol as (_ & Hb0 & _). specialize (Hb0 k p Hold).
    pose proof (lowest_right_ge (fst (place_right py_float ix left_key (rp0, y0))) start). lia.
  - apply (lowest_right_covers _ _ k); [assumption | now apply In_get].
Qed.

End PlaceRight.

(** *** The whole placement *)

Lemma place_left_connector_ok (ix : Index) (mod_name conn_name : string) (st : LayoutState) :
  layout_ok st -> layout_ok (place_left_connector py_float ix mod_name st conn_name).
Proof.
  intros [Hl Hr]. unfold place_left_connector.
  set (left_key := conn_key mod_name conn_name).
  set (box := make_box py_float (left_connectors ix) margin_x (current_y st) mod_name conn_name).
  pose proof (place_right_below ix left_key (right_positions st) (current_y st)
                (current_y st + pos_height box) Hr) as Hbelow.
  pose proof (lowest_right_ge ix left_key
                (fst (place_right py_float ix left_key (right_positions st, current_y st)))
                (current_y st + pos_height box)) as Hge.
  pose proof (make_box_height_pos (left_connectors ix) margin_x (current_y st) mod_name conn_name)
    as Hh. fold box in Hh.
  destruct (place_right py_float ix left_key (right_positions st, current_y st)) as [rp' rsy'].
  simpl in *. unfold module_spacing. split; simpl.
  - apply (column_ok_set _ (current_y st)); [assumption | simpl; lia | assumption |].
    unfold bottom. simpl. lia.
  - eapply column_ok_mono; [apply Hbelow; lia | lia].
Qed.

Lemma place_left_ok (ix : Index) (order : list string) (st : LayoutState) :
  layout_ok st -> layout_ok (place_left py_float ix order st).
Proof.
  intros H. unfold place_left. apply fold_left_inv; [assumption|].
  intros st1 m _ H1. apply fold_left_inv; [assumption|].
  intros st2 c _ H2. now apply place_left_connector_ok.
Qed.

Lemma place_leftover_ok (ix : Index) (mod_name conn_name : string) (st : LayoutState) :
  layout_ok st -> layout_ok (place_leftover py_float ix mod_name st conn_name).
Proof.
  intros [Hl Hr]. unfold place_leftover.
  destruct (Dict.mem (right_positions st) (conn_key mod_name conn_name)); [now split|].
  pose proof (make_box_height_pos (right_connectors ix) right_x (current_y st) mod_name conn_name)
    as Hh.
  unfold connector_padding. split; simpl.
  - eapply column_ok_mono; [eassumption | simpl in Hh; lia].
  - apply (column_ok_set _ (current_y st)); [assumption | simpl; lia | assumption |].
    unfold bottom. simpl in *. lia.
Qed.

Lemma layout_is_ok (ix : Index) : layout_ok (layout py_float ix).
Proof.
  unfold layout, place_leftovers.
  apply fold_left_inv.
  - apply place_left_ok. split; apply column_ok_nil.
  - intros st1 m _ H1. apply fold_left_inv; [assumption|].
    intros st2 c _ H2. now apply place_leftover_ok.
Qed.

(** *** From the invariant to the specification's test *)

Lemma apart_sym (p q : Position) : apart p q -> apart q p.
Proof. unfold apart. tauto. Qed.

Lemma values_pairwise (d : dict Position) :
  NoDup (keys d) ->
  (forall k1 p1 k2 p2, In (k1, p1) d -> In (k2, p2) d -> k1 <> k2 -> apart p1 p2) ->
  ForallOrdPairs apart (values d).
Proof.
  induction d as [|[k p] t IH]; intros Hnd Ha; simpl; [constructor|].
  inversion Hnd as [|? ? Hk Hnd']; subst. constructor.
  - apply Forall_forall. intros q Hq. apply in_map_iff in Hq.
    destruct Hq as [[k' q'] [E Hin]]. simpl in E. subst q'.
    apply (Ha k p k' q); [now left | now right |].
    intros ->. apply Hk. now apply (in_map fst) in Hin.
  - apply IH; [assumption|]. intros k1 p1 k2 p2 H1 H2. apply Ha; now right.
Qed.

Lemma insert_sorted_pairwise {A : Type} (lt : A -> A -> bool) (R : A -> A -> Prop)
    (x : A) (l : list A) :
  (forall a b, R a b -> R b a) ->
  Forall (R x) l -> ForallOrdPairs R l -> ForallOrdPairs R (insert_sorted lt x l).
Proof.
  intros Hsym. induction l as [|y t IH]; intros Hx Hl; simpl.
  - constructor; [constructor | constructor].
  - inversion Hx as [|? ? Hxy Hxt]; subst. inversion Hl as [|? ? Hyt Ht]; subst.
    destruct (lt y x).
    + constructor; [|now apply IH].
      apply Forall_forall. intros z Hz.
      apply (Permutation_in _ (insert_sorted_perm lt x t)) in Hz.
      destruct Hz as [<-|Hz]; [now apply Hsym|].
      rewrite Forall_forall in Hyt. now apply Hyt.
    + constructor; [now constructor | now constructor].
Qed.

Lemma sorted_pairwise {A : Type} (lt : A -> A -> bool) (R : A -> A -> Prop) (l : list A) :
  (forall a b, R a b -> R b a) ->
  ForallOrdPairs R l -> ForallOrdPairs R (sorted lt l).
Proof.
  intros Hsym. induction l as [|x t IH]; intros Hl; simpl; [constructor|].
  inversion Hl as [|? ? Hxt Ht]; subst.
  apply insert_sorted_pairwise; [assumption | | now apply IH].
  apply Forall_forall. intros z Hz. apply (proj1 (In_sorted lt z t)) in Hz.
  rewrite Forall_forall in Hxt. now apply Hxt.
Qed.

Lemma sort_by_y_ascending (l : list Position) :
  StronglySorted (fun a b => pos_y a <= pos_y b) (sort_by_y l).
Proof.
  unfold sort_by_y, sorted_key.
  apply (StronglySorted_weaken
           (fun a b => Z.ltb (pos_y b) (pos_y a) = false) _ (fun _ => True)).
  - intros a b _ _ H. apply Z.ltb_ge in H. exact H.
  - apply Forall_forall. intros; exact I.
  - apply (sorted_strongly _ (fun _ => True)).
    + intros a b _ _ H. apply Z.ltb_lt in H. apply Z.ltb_ge. lia.
    + intros a b c _ _ _ H1 H2. apply Z.ltb_ge in H1, H2. apply Z.ltb_ge. lia.
    + apply Forall_forall. intros; exact I.
Qed.

Lemma chained_of_sorted (l : list Position) :
  StronglySorted (fun a b => pos_y a <= pos_y b) l ->
  ForallOrdPairs apart l ->
  Forall (fun p => 0 < pos_height p) l ->
  chained l.
Proof.
  induction l as [|a t IH]; intros Hs Hp Hh; [exact I|].
  destruct t as [|b t']; [exact I|].
  inversion Hs as [|? ? Hst Hall]; subst. inversion Hp as [|? ? Hat Hpt]; subst.
  inversion Hh as [|? ? Ha Hht]; subst.
  split; [|now apply IH].
  inversion Hall as [|? ? Hab _]; subst. inversion Hat as [|? ? Hap _]; subst.
  inversion Hht as [|? ? Hb _]; subst.
  unfold apart, bottom in *. lia.
Qed.

(** A column that satisfies the invariant passes the test. *)
Lemma column_no_overlap (d : dict Position) (c : Z) : column_ok d c -> no_overlap d.
Proof.
  intros (Hnd & Hb & Ha). unfold no_overlap. apply chained_of_sorted.
  - apply sort_by_y_ascending.
  - apply sorted_pairwise; [exact apart_sym | now apply values_pairwise].
  - apply Forall_forall. intros p Hp. apply (proj1 (In_sorted _ p _)) in Hp.
    apply in_map_iff in Hp. destruct Hp as [[k p'] [E Hin]]. simpl in E. subst p'.
    now apply (Hb k p).
Qed.

Lemma draw_left (ix : Index) :
  b_left (d_boxes (draw py_float ix)) = left_positions (layout py_float ix).
Proof.
  unfold draw, boxes_of. simpl.
  destruct (create_boxes false (left_positions (layout py_float ix)) (2%nat, [])) as [n ids].
  now destruct (create_boxes true (right_positions (layout py_float ix)) (n, ids)).
Qed.

Lemma draw_right (ix : Index) :
  b_right (d_boxes (draw py_float ix)) = right_positions (layout py_float ix).
Proof.
  unfold draw, boxes_of. simpl.
  destruct (create_boxes false (left_positions (layout py_float ix)) (2%nat, [])) as [n ids].
  now destruct (create_boxes true (right_positions (layout py_float ix)) (n, ids)).
Qed.

(** C3. In the diagram drawn from any sheet, the LEFT boxes sorted by Y
    are chained (each ends at or before the start of the next), and so are
    the RIGHT boxes. *)
Theorem boxes_never_overlap (rs : list Row) :
  no_overlap (b_left (d_boxes (draw py_float (build_index rs)))) /\
  no_overlap (b_right (d_boxes (draw py_float (build_index rs)))).
Proof.
  rewrite draw_left, draw_right.
  destruct (layout_is_ok (build_index rs)) as [Hl Hr].
  split; eapply column_no_overlap; eassumption.
Qed.

(** ** The RIGHT boxes placed with a LEFT connector *)

Lemma nested_fold_flat {S A B : Type} (f : A -> S -> B -> S) (g : A -> list B)
    (l : list A) (st : S) :
  fold_left (fun st a => fold_left (f a) (g a) st) l st =
  fold_left (fun st c => f (fst c) st (snd c)) (flat_map (fun a => map (pair a) (g a)) l) st.
Proof.
  revert st. induction l as [|a t IH]; intros st; simpl; [reflexivity|].
  rewrite fold_left_app, <- IH. f_equal.
  generalize (g a). intros bs. revert st.
  induction bs as [|b bs IHb]; intros st; simpl; [reflexivity | apply IHb].
Qed.

Lemma mem_set {V : Type} (d : dict V) (k k' : string) (v : V) :
  Dict.mem (Dict.set d k v) k' = String.eqb k' k || Dict.mem d k'.
Proof. unfold Dict.mem. rewrite get_set. now destruct (String.eqb k' k). Qed.

Lemma filter_comm {A : Type} (f g : A -> bool) (l : list A) :
  filter f (filter g l) = filter g (filter f l).
Proof. rewrite !filter_filter. apply filter_ext. intros a. apply andb_comm. Qed.

(** Filtering by a test on keys commutes with keeping first occurrences. *)
Lemma filter_first_by_key (p : string * string -> bool) (l : list (string * string)) :
  (forall a b, pair_key a = pair_key b -> p a = p b) ->
  filter p (first_by_key l) = first_by_key (filter p l).
Proof.
  intros Hp. induction l as [|x t IH]; simpl; [reflexivity|].
  destruct (p x) eqn:E; simpl.
  - f_equal. rewrite filter_comm. now rewrite IH.
  - rewrite <- IH, filter_filter. apply filter_ext_in. intros y _.
    destruct (String.eqb_spec (pair_key y) (pair_key x)) as [Hk|]; simpl; [|reflexivity].
    rewrite (Hp y x Hk). now rewrite E.
Qed.

Lemma place_right_connector_step (ix : Index) (left_key : string) (c : string * string)
    (rp : dict Position) (y : Z) :
  place_right_connector py_float ix left_key (fst c) (rp, y) (snd c) =
  if to_place ix left_key rp c
  then (Dict.set rp (pair_key c) (make_box py_float (right_connectors ix) right_x y (fst c) (snd c)),
        y + pos_height (make_box py_float (right_connectors ix) right_x y (fst c) (snd c))
          + connector_padding)
  else (rp, y).
Proof.
  unfold place_right_connector, to_place, pair_key.
  destruct (Dict.mem rp (conn_key (fst c) (snd c))); simpl; [reflexivity|].
  now destruct (has_connection (connections ix) left_key (fst c) (snd c)).
Qed.

Lemma place_right_flat (ix : Index) (left_key : string) (cands : list (string * string))
    (rp : dict Position) (y : Z) :
  fst (fold_left
         (fun st c => place_right_connector py_float ix left_key (fst c) st (snd c))
         cands (rp, y)) =
  rp ++ stack_right py_float ix y (first_by_key (filter (to_place ix left_key rp) cands)).
Proof.
  revert rp y. induction cands as [|c t IH]; intros rp y; cbn [fold_left filter];
    [cbn; now rewrite app_nil_r|].
  rewrite place_right_connector_step.
  destruct (to_place ix left_key rp c) eqn:E; [|apply IH].
  rewrite IH. cbn [first_by_key stack_right].
  assert (Hmem : Dict.mem rp (pair_key c) = false).
  { unfold to_place in E. apply andb_true_iff in E. destruct E as [E _].
    now apply negb_true_iff in E. }
  set (box := make_box py_float (right_connectors ix) right_x y (fst c) (snd c)).
  assert (Hf : filter (to_place ix left_key (Dict.set rp (pair_key c) box)) t =
               filter (fun c' => negb (String.eqb (pair_key c') (pair_key c)))
                      (filter (to_place ix left_key rp) t)).
  { rewrite filter_filter. apply filter_ext. intros c'. unfold to_place.
    rewrite mem_set, negb_orb.
    destruct (String.eqb (pair_key c') (pair_key c)), (Dict.mem rp (pair_key c')),
             (has_connection (connections ix) left_key (fst c') (snd c')); reflexivity. }
  rewrite Hf, (set_fresh rp _ _ Hmem), <- app_assoc. simpl. do 3 f_equal.
  symmetry. apply filter_first_by_key. intros a b Hk. now rewrite Hk.
Qed.

(** C2 (amended). Placing a LEFT connector puts its box at the cursor Y
    and appends to the RIGHT placement, from that same Y downward and
    [connector_padding] apart, the connector groups of the connected RIGHT
    modules that are not yet placed and have a connection from this LEFT
    connector, by module name and then connector name; nothing else is
    placed on the RIGHT. *)
Theorem wired_groups_coplaced (ix : Index) (mod_name conn_name : string) (st : LayoutState) :
  Dict.get (left_positions (place_left_connector py_float ix mod_name st conn_name))
           (conn_key mod_name conn_name)
  = Some (make_box py_float (left_connectors ix) margin_x (current_y st) mod_name conn_name) /\
  right_positions (place_left_connector py_float ix mod_name st conn_name) =
  right_positions st
    ++ stack_right py_float ix (current_y st)
         (wired_unplaced ix (conn_key mod_name conn_name) (right_positions st)).
Proof.
  unfold place_left_connector.
  pose proof (place_right_flat ix (conn_key mod_name conn_name)
                (right_candidates ix (conn_key mod_name conn_name))
                (right_positions st) (current_y st)) as H.
  unfold right_candidates in H. rewrite <- nested_fold_flat in H.
  fold (place_right py_float ix (conn_key mod_name conn_name) (right_positions st, current_y st)) in H.
  destruct (place_right py_float ix (conn_key mod_name conn_name)
              (right_positions st, current_y st)) as [rp' rsy'].
  simpl in *. split; [apply get_set_same | exact H].
Qed.

(** ** Lanes *)

(** What a drawn wire says about its exit lane. *)
Lemma route_exit_x (b : Boxes) (n : nat) (conn : Connection) (w : Wire) :
  route b n conn = Some w ->
  exists left_pos li,
    Dict.get (b_left b) (left_key_of conn) = Some left_pos /\
    left_pin_idx b conn = Some li /\
    exit_x w = pos_x left_pos + pos_width left_pos + 5 + base_offset
               + get_or 0 (b_left_offsets b) (left_key_of conn) + Z.of_nat li * spacing.
Proof.
  unfold route. intros H.
  destruct (Dict.get (b_left b) (left_key_of conn)) as [left_pos|] eqn:El; [|discriminate].
  destruct (Dict.get (b_right b) (right_key_of conn)) as [right_pos|]; [|discriminate].
  destruct (Dict.get (b_pin_ids b) _) as [source_id|]; [|discriminate].
  destruct (Dict.get (b_pin_ids b) _) as [target_id|]; [|discriminate].
  destruct (left_pin_idx b conn) as [li|] eqn:Eli; [|discriminate].
  destruct (right_pin_idx b conn) as [ri|]; [|discriminate].
  inversion H. exists left_pos, li. repeat split; reflexivity.
Qed.

Lemma fold_left_reach {A B : Type} (Q : B -> A -> Prop) (f : A -> B -> A) (l : list B) (a : A) (b : B) :
  (forall a, Q b (f a b)) ->
  (forall a b', Q b a -> Q b (f a b')) ->
  In b l -> Q b (fold_left f l a).
Proof.
  intros Hnew Hkeep. revert a. induction l as [|b0 t IH]; intros a Hin; [destruct Hin|].
  simpl. destruct Hin as [->|Hin]; [|now apply IH].
  apply fold_left_inv; [apply Hnew | intros; now apply Hkeep].
Qed.

Lemma place_left_connector_keys (ix : Index) (m c : string) (st : LayoutState) (k : string) :
  k = conn_key m c \/ In k (keys (left_positions st)) ->
  In k (keys (left_positions (place_left_connector py_float ix m st c))).
Proof.
  unfold place_left_connector.
  destruct (place_right py_float ix (conn_key m c) (right_positions st, current_y st)) as [rp' y'].
  simpl. rewrite keys_set. intros [->|H].
  - destruct (Dict.mem (left_positions st) (conn_key m c)) eqn:E;
      [now apply mem_true | apply in_or_app; right; now left].
  - destruct (Dict.mem (left_positions st) (conn_key m c)); [assumption | apply in_or_app; now left].
Qed.

Lemma place_leftovers_left (ix : Index) (st : LayoutState) :
  left_positions (place_leftovers py_float ix st) = left_positions st.
Proof.
  unfold place_leftovers.
  apply (fold_left_inv (fun s => left_positions s = left_positions st)); [reflexivity|].
  intros s m _ Hs.
  apply (fold_left_inv (fun s => left_positions s = left_positions st)); [assumption|].
  intros s' c _ Hs'. unfold place_leftover.
  now destruct (Dict.mem (right_positions s') (conn_key m c)).
Qed.

(** Every LEFT connector of the walk has a box. *)
Lemma left_order_placed (ix : Index) (c : string * string) :
  In c (left_order py_float ix) ->
  In (pair_key c) (keys (left_positions (layout py_float ix))).
Proof.
  intros Hin. unfold layout. rewrite place_leftovers_left. unfold place_left.
  rewrite nested_fold_flat. fold (left_order py_float ix).
  apply (fold_left_reach (fun c st => In (pair_key c) (keys (left_positions st)))); [| |assumption].
  - intros st. apply place_left_connector_keys. now left.
  - intros st c' H. apply place_left_connector_keys. now right.
Qed.

Lemma left_offsets_loop_flat (ix : Index) (left_pos : dict Position) :
  left_offsets_loop ix left_pos (sorted_left_modules py_float ix) ([], 0) =
  left_offsets_upto left_pos (left_order py_float ix).
Proof. unfold left_offsets_loop, left_offsets_upto, left_order. apply nested_fold_flat. Qed.

Lemma left_offset_step_found (left_pos : dict Position) (c : string * string) (st : dict Z * Z) :
  In (pair_key c) (keys left_pos) ->
  left_offset_step left_pos (fst c) st (snd c) =
  (Dict.set (fst st) (pair_key c) (snd st),
   snd st + lane_band (get_or no_box left_pos (pair_key c))).
Proof.
  intros Hin. unfold left_offset_step, get_or, pair_key in *. destruct st as [offs cur].
  destruct (Dict.get left_pos (conn_key (fst c) (snd c))) eqn:E.
  - unfold lane_band. simpl. f_equal. lia.
  - apply get_None in E. contradiction.
Qed.

Lemma left_counter (left_pos : dict Position) (l : list (string * string)) (st : dict Z * Z) :
  (forall c, In c l -> In (pair_key c) (keys left_pos)) ->
  snd (fold_left (fun st c => left_offset_step left_pos (fst c) st (snd c)) l st) =
  snd st + bands_at left_pos (map pair_key l).
Proof.
  revert st. induction l as [|c t IH]; intros st H; simpl; [lia|].
  rewrite IH by (intros; apply H; now right).
  rewrite left_offset_step_found by (apply H; now left). simpl. lia.
Qed.

Lemma right_counter (right_pos : dict Position) (l : dict Position) (st : dict Z * Z) :
  (forall k p, In (k, p) l -> Dict.get right_pos k = Some p) ->
  snd (right_offsets_loop right_pos (keys l) st) = snd st + bands_of (values l).
Proof.
  unfold right_offsets_loop. revert st.
  induction l as [|[k p] t IH]; intros [offs cur] H; simpl; [lia|].
  rewrite IH by (intros; apply H; now right).
  unfold get_or. rewrite (H k p) by now left. unfold lane_band. simpl. lia.
Qed.

Lemma right_offsets_keep (right_pos : dict Position) (ks : list string) (st : dict Z * Z) (k : string) :
  ~ In k ks ->
  Dict.get (fst (right_offsets_loop right_pos ks st)) k = Dict.get (fst st) k.
Proof.
  unfold right_offsets_loop. revert st.
  induction ks as [|k0 t IH]; intros [offs cur] H; simpl; [reflexivity|].
  rewrite IH by (intros Hin; apply H; now right). simpl.
  rewrite get_set. destruct (String.eqb_spec k k0) as [->|]; [|reflexivity].
  exfalso. apply H. now left.
Qed.

Lemma bands_of_app (l1 l2 : list Position) : bands_of (l1 ++ l2) = bands_of l1 + bands_of l2.
Proof. induction l1 as [|p t IH]; simpl; [reflexivity | rewrite IH; lia]. Qed.

Lemma right_offsets_app (right_pos : dict Position) (ks1 ks2 : list string) (st : dict Z * Z) :
  right_offsets_loop right_pos (ks1 ++ ks2) st =
  right_offsets_loop right_pos ks2 (right_offsets_loop right_pos ks1 st).
Proof. apply fold_left_app. Qed.

Lemma right_step_get (right_pos : dict Position) (st : dict Z * Z) (k : string) :
  Dict.get (fst (right_offset_step right_pos st k)) k = Some (snd st).
Proof. destruct st as [offs cur]. simpl. apply get_set_same. Qed.

Lemma right_step_counter (right_pos : dict Position) (st : dict Z * Z) (k : string) (p : Position) :
  Dict.get right_pos k = Some p ->
  snd (right_offset_step right_pos st k) = snd st + lane_band p.
Proof.
  intros H. destruct st as [offs cur]. simpl. unfold get_or. rewrite H.
  unfold lane_band. lia.
Qed.

(** The offset of the RIGHT connector that follows the boxes [l1]. *)
Lemma right_offset_at (right_pos l1 : dict Position) (k : string) (p : Position)
    (l2 : dict Position) :
  NoDup (keys right_pos) -> right_pos = l1 ++ (k, p) :: l2 ->
  Dict.get (fst (right_offsets_loop right_pos (keys right_pos) ([], 0))) k
  = Some (bands_of (values l1)).
Proof.
  intros Hnd HR.
  assert (Hget : forall k' p', In (k', p') l1 -> Dict.get right_pos k' = Some p').
  { intros k' p' Hin. apply In_get; [assumption|]. rewrite HR. apply in_or_app. now left. }
  assert (Hkeys : keys right_pos = keys l1 ++ k :: keys l2)
    by (rewrite HR; unfold keys; now rewrite map_app).
  rewrite Hkeys in Hnd. pose proof (NoDup_remove_2 _ _ _ Hnd) as Hk.
  rewrite Hkeys, right_offsets_app.
  change (right_offsets_loop right_pos (k :: keys l2) ?st)
    with (right_offsets_loop right_pos (keys l2) (right_offset_step right_pos st k)).
  rewrite right_offsets_keep by (intros Hin; apply Hk; apply in_or_app; now right).
  rewrite right_step_get, (right_counter right_pos l1 _ Hget). reflexivity.
Qed.

Lemma right_counter_at (right_pos l1 : dict Position) (k : string) (p : Position)
    (l2 : dict Position) :
  NoDup (keys right_pos) -> right_pos = l1 ++ (k, p) :: l2 ->
  snd (right_offsets_loop right_pos (keys (l1 ++ [(k, p)])) ([], 0))
  = bands_of (values l1) + lane_band p.
Proof.
  intros Hnd HR.
  assert (Hget : forall k' p', In (k', p') (l1 ++ [(k, p)]) -> Dict.get right_pos k' = Some p').
  { intros k' p' Hin. apply In_get; [assumption|]. rewrite HR.
    apply in_app_or in Hin. apply in_or_app.
    destruct Hin as [Hin|[<-|[]]]; [now left | right; now left]. }
  rewrite (right_counter right_pos _ _ Hget). unfold values.
  rewrite map_app, bands_of_app. simpl. lia.
Qed.

Lemma draw_left_offsets (ix : Index) :
  b_left_offsets (d_boxes (draw py_float ix)) =
  fst (left_offsets_upto (left_positions (layout py_float ix)) (left_order py_float ix)).
Proof.
  unfold draw, boxes_of. simpl.
  destruct (create_boxes false (left_positions (layout py_float ix)) (2%nat, [])) as [n ids].
  destruct (create_boxes true (right_positions (layout py_float ix)) (n, ids)).
  simpl. now rewrite left_offsets_loop_flat.
Qed.

Lemma draw_right_offsets (ix : Index) :
  b_right_offsets (d_boxes (draw py_float ix)) =
  fst (right_offsets_upto (right_positions (layout py_float ix))
         (keys (right_positions (layout py_float ix)))).
Proof.
  unfold draw, boxes_of. simpl.
  destruct (create_boxes false (left_positions (layout py_float ix)) (2%nat, [])) as [n ids].
  now destruct (create_boxes true (right_positions (layout py_float ix)) (n, ids)).
Qed.

(** C4. In the diagram drawn from any sheet:
    - two wires that leave the same LEFT connector from pins of different
      index have exit lanes at least [spacing] = 12 apart;
    - the LEFT offsets are those of the walk over the LEFT connectors in
      placement order, and right after a connector is visited its offset
      is the sum of the bands [pins * spacing + spacing] of the connectors
      before it, the counter being that sum plus its own band;
    - each RIGHT connector, in placement order (the order of
      [right_positions]), gets as offset the sum of the bands of the RIGHT
      connectors placed before it, and the counter ends at the sum of
      all bands. *)
Theorem lane_offsets (rs : list Row) :
  (forall c1 c2 n1 n2 w1 w2 i1 i2,
     route (d_boxes (draw py_float (build_index rs))) n1 c1 = Some w1 ->
     route (d_boxes (draw py_float (build_index rs))) n2 c2 = Some w2 ->
     mod1 c1 = mod1 c2 -> conn1 c1 = conn1 c2 ->
     left_pin_idx (d_boxes (draw py_float (build_index rs))) c1 = Some i1 ->
     left_pin_idx (d_boxes (draw py_float (build_index rs))) c2 = Some i2 ->
     i1 <> i2 ->
     spacing <= Z.abs (exit_x w1 - exit_x w2)) /\
  (b_left_offsets (d_boxes (draw py_float (build_index rs))) =
     fst (left_offsets_upto (b_left (d_boxes (draw py_float (build_index rs))))
            (left_order py_float (build_index rs))) /\
   forall l1 c l2,
     left_order py_float (build_index rs) = l1 ++ c :: l2 ->
     Dict.get (fst (left_offsets_upto (b_left (d_boxes (draw py_float (build_index rs))))
                      (l1 ++ [c])))
              (pair_key c)
     = Some (bands_at (b_left (d_boxes (draw py_float (build_index rs)))) (map pair_key l1)) /\
     snd (left_offsets_upto (b_left (d_boxes (draw py_float (build_index rs)))) (l1 ++ [c]))
     = snd (left_offsets_upto (b_left (d_boxes (draw py_float (build_index rs)))) l1)
       + lane_band (get_or no_box (b_left (d_boxes (draw py_float (build_index rs)))) (pair_key c))) /\
  (forall l1 k p l2,
     b_right (d_boxes (draw py_float (build_index rs))) = l1 ++ (k, p) :: l2 ->
     Dict.get (b_right_offsets (d_boxes (draw py_float (build_index rs)))) k
     = Some (bands_of (values l1)) /\
     snd (right_offsets_upto (b_right (d_boxes (draw py_float (build_index rs))))
            (keys (l1 ++ [(k, p)])))
     = bands_of (values l1) + lane_band p).
Proof.
  set (ix := build_index rs). split; [|split].
  - intros c1 c2 n1 n2 w1 w2 i1 i2 H1 H2 Hm Hc Hi1 Hi2 Hne.
    apply route_exit_x in H1. destruct H1 as [lp1 [li1 [Hg1 [Hl1 ->]]]].
    apply route_exit_x in H2. destruct H2 as [lp2 [li2 [Hg2 [Hl2 ->]]]].
    assert (Hk : left_key_of c1 = left_key_of c2) by (unfold left_key_of; now rewrite Hm, Hc).
    rewrite Hk in *. rewrite Hg1 in Hg2. inversion Hg2; subst lp2.
    rewrite Hl1 in Hi1. rewrite Hl2 in Hi2. inversion Hi1; inversion Hi2; subst.
    unfold spacing. lia.
  - rewrite draw_left_offsets, draw_left. split; [reflexivity|].
    intros l1 c l2 Hord.
    assert (Hall : forall c', In c' (l1 ++ [c]) ->
                     In (pair_key c') (keys (left_positions (layout py_float ix)))).
    { intros c' Hin. apply left_order_placed. rewrite Hord.
      apply in_app_or in Hin. apply in_or_app.
      destruct Hin as [Hin|[<-|[]]]; [now left | right; now left]. }
    assert (Hl1 : snd (left_offsets_upto (left_positions (layout py_float ix)) l1) =
                  bands_at (left_positions (layout py_float ix)) (map pair_key l1)).
    { unfold left_offsets_upto. rewrite left_counter; [reflexivity|].
      intros c' Hin. apply Hall. apply in_or_app. now left. }
    unfold left_offsets_upto in *. rewrite fold_left_app. simpl.
    rewrite left_offset_step_found by (apply Hall; apply in_or_app; right; now left).
    simpl. rewrite get_set_same, Hl1. split; reflexivity.
  - intros l1 k p l2 HR. rewrite draw_right_offsets. rewrite draw_right in *.
    destruct (layout_is_ok ix) as [_ (Hnd & _ & _)]. fold ix in HR.
    split.
    + unfold right_offsets_upto. now apply (right_offset_at _ l1 k p l2).
    + unfold right_offsets_upto. apply (right_counter_at _ l1 k p l2); assumption.
Qed.

(** ** The classifier ignores case and surrounding blanks *)

Lemma lower_char_idem (c : ascii) : PyStr.lower_char (PyStr.lower_char c) = PyStr.lower_char c.
Proof. destruct c as [[] [] [] [] [] [] [] []]; reflexivity. Qed.

Lemma lower_idem (s : string) : PyStr.lower (PyStr.lower s) = PyStr.lower s.
Proof. induction s as [|c t IH]; simpl; [reflexivity | now rewrite lower_char_idem, IH]. Qed.

Lemma lower_empty (s : string) : PyStr.lower s = "" <-> s = "".
Proof. destruct s; simpl; split; intros H; [reflexivity | reflexivity | discriminate | discriminate]. Qed.

Lemma rstrip_idem (s : string) : PyStr.rstrip (PyStr.rstrip s) = PyStr.rstrip s.
Proof.
  induction s as [|c t IH]; simpl; [reflexivity|].
  destruct (PyStr.rstrip t) as [|a u] eqn:E.
  - destruct (PyStr.is_space c) eqn:Ec; simpl; [reflexivity | now rewrite Ec].
  - change (PyStr.rstrip (String c (String a u)))
      with (match PyStr.rstrip (String a u) with
            | EmptyString => if PyStr.is_space c then EmptyString else String c EmptyString
            | t' => String c t'
            end).
    now rewrite IH.
Qed.

Lemma lstrip_head (s : string) :
  match PyStr.lstrip s with
  | EmptyString => True
  | String c _ => PyStr.is_space c = false
  end.
Proof.
  induction s as [|c t IH]; simpl; [exact I|].
  destruct (PyStr.is_space c) eqn:E; [exact IH | exact E].
Qed.

Lemma lstrip_rstrip (s : string) :
  match s with
  | EmptyString => True
  | String c _ => PyStr.is_space c = false
  end ->
  PyStr.lstrip (PyStr.rstrip s) = PyStr.rstrip s.
Proof.
  destruct s as [|c t]; simpl; [reflexivity|]. intros Hc.
  destruct (PyStr.rstrip t); rewrite ?Hc; simpl; now rewrite Hc.
Qed.

Lemma strip_idem (s : string) : PyStr.strip (PyStr.strip s) = PyStr.strip s.
Proof.
  unfold PyStr.strip. rewrite (lstrip_rstrip _ (lstrip_head s)). apply rstrip_idem.
Qed.


(** ** The index in closed form *)

Lemma pins_at_index_from (rs : list Connection) (ix : Index) (m c p : string) :
  pins_at (left_connectors (index_from ix rs)) m c p
    = pins_at (left_connectors ix) m c p ++ left_entries rs m c p /\
  pins_at (right_connectors (index_from ix rs)) m c p
    = pins_at (right_connectors ix) m c p ++ right_entries rs m c p.
Proof.
  revert ix. induction rs as [|r t IH]; intros ix; simpl.
  - unfold left_entries, right_entries. simpl. now rewrite !app_nil_r.
  - destruct (IH (index_row ix r)) as [IHl IHr]. rewrite IHl, IHr.
    unfold left_entries, right_entries, index_row. simpl.
    destruct (is_valid_signal (signal1 r)) eqn:V1, (is_valid_signal (signal2 r)) eqn:V2; simpl;
      rewrite ?pins_at_add_pin;
      repeat match goal with
             | |- context [String.eqb ?a ?b && String.eqb ?c ?d && String.eqb ?e ?f] =>
                 destruct (String.eqb a b && String.eqb c d && String.eqb e f)
             end; simpl; rewrite <- ?app_assoc; split; reflexivity.
Qed.

Lemma connections_index_from (rs : list Connection) (ix : Index) :
  connections (index_from ix rs) = connections ix ++ filter wired rs.
Proof.
  revert ix. induction rs as [|r t IH]; intros ix; simpl; [now rewrite app_nil_r|].
  rewrite IH. unfold index_row, wired.
  destruct (is_valid_signal (signal1 r)), (is_valid_signal (signal2 r)); simpl;
    rewrite <- ?app_assoc; reflexivity.
Qed.

Lemma build_index_entries (rs : list Row) (m c p : string) :
  pins_at (left_connectors (build_index rs)) m c p = left_entries (iterrows 0 rs) m c p /\
  pins_at (right_connectors (build_index rs)) m c p = right_entries (iterrows 0 rs) m c p.
Proof. apply (pins_at_index_from _ empty_index). Qed.


(** ** Every box belongs to a connector of the index *)

Lemma In_set_weak {V : Type} (d : dict V) (k : string) (v : V) (k' : string) (v' : V) :
  In (k', v') (Dict.set d k v) -> (k' = k /\ v' = v) \/ In (k', v') d.
Proof.
  induction d as [|[k0 v0] t IH]; simpl.
  - intros [E|[]]. inversion E. now left.
  - destruct (String.eqb_spec k k0) as [->|Hne]; simpl.
    + intros [E|H]; [inversion E; now left | right; now right].
    + intros [E|H]; [right; now left|].
      destruct (IH H) as [H'|H']; [now left | right; now right].
Qed.

Lemma sorted_connectors_In (d : ModsDict) (m c : string) :
  In c (sorted_connectors d m) -> In m (keys d) /\ In c (keys (get_or [] d m)).
Proof.
  unfold sorted_connectors, sorted_str. intros H. apply (proj1 (In_sorted _ _ _)) in H.
  split; [|assumption].
  unfold get_or in H.
  match type of H with
  | context [match ?g with _ => _ end] => destruct g eqn:E; [|simpl in H; contradiction]
  end.
  apply get_In in E. now apply (in_map fst) in E.
Qed.

Lemma In_sorted_connectors (d : ModsDict) (m c : string) :
  In c (keys (get_or [] d m)) -> In c (sorted_connectors d m).
Proof. intros H. unfold sorted_connectors, sorted_str. now apply In_sorted. Qed.

Lemma sorted_left_modules_In (ix : Index) (m : string) :
  In m (sorted_left_modules py_float ix) <-> In m (keys (left_connectors ix)).
Proof.
  unfold sorted_left_modules, sorted_key. rewrite In_sorted.
  unfold left_modules. rewrite keys_fold_set, fold_see_nil. apply In_first_seen.
Qed.

Lemma boxes_from_set (d : ModsDict) (x y : Z) (positions : dict Position) (m c : string) :
  boxes_from py_float d x positions ->
  In m (keys d) -> In c (keys (get_or [] d m)) -> margin_y <= y ->
  boxes_from py_float d x (Dict.set positions (conn_key m c) (make_box py_float d x y m c)).
Proof.
  intros H Hm Hc Hy k p Hin. apply In_set_weak in Hin. destruct Hin as [[-> ->]|Hin].
  - exists m, c, y. auto.
  - now apply H.
Qed.

Lemma place_right_sound (ix : Index) (left_key : string) (rp : dict Position) (y : Z) :
  boxes_from py_float (right_connectors ix) right_x rp -> margin_y <= y ->
  boxes_from py_float (right_connectors ix) right_x (fst (place_right py_float ix left_key (rp, y))).
Proof.
  intros Hrp Hy.
  cut (boxes_from py_float (right_connectors ix) right_x
         (fst (place_right py_float ix left_key (rp, y)))
       /\ margin_y <= snd (place_right py_float ix left_key (rp, y))); [tauto|].
  unfold place_right.
  apply (fold_left_inv
           (fun st => boxes_from py_float (right_connectors ix) right_x (fst st)
                      /\ margin_y <= snd st)); [now split|].
  intros st rm _ Hst.
  apply (fold_left_inv
           (fun st => boxes_from py_float (right_connectors ix) right_x (fst st)
                      /\ margin_y <= snd st)); [assumption|].
  intros [rp' y'] rc Hrc [Hb Hy']. simpl in *. unfold place_right_connector.
  destruct (Dict.mem rp' (conn_key rm rc)); [now split|].
  destruct (negb (has_connection (connections ix) left_key rm rc)); [now split|].
  apply sorted_connectors_In in Hrc. destruct Hrc as [Hm Hc]. simpl. split.
  - now apply boxes_from_set.
  - pose proof (make_box_height_pos (right_connectors ix) right_x y' rm rc).
    unfold connector_padding. simpl in *. lia.
Qed.

Lemma place_left_connector_sound (ix : Index) (m c : string) (st : LayoutState) :
  In c (sorted_connectors (left_connectors ix) m) ->
  layout_sound py_float ix st ->
  layout_sound py_float ix (place_left_connector py_float ix m st c).
Proof.
  intros Hc (Hl & Hr & Hy). apply sorted_connectors_In in Hc. destruct Hc as [Hm Hc].
  unfold place_left_connector.
  pose proof (place_right_sound ix (conn_key m c) (right_positions st) (current_y st) Hr Hy) as Hr'.
  pose proof (lowest_right_ge ix (conn_key m c)
                (fst (place_right py_float ix (conn_key m c) (right_positions st, current_y st)))
                (current_y st
                 + pos_height (make_box py_float (left_connectors ix) margin_x (current_y st) m c)))
    as Hge.
  pose proof (make_box_height_pos (left_connectors ix) margin_x (current_y st) m c) as Hh.
  destruct (place_right py_float ix (conn_key m c) (right_positions st, current_y st)) as [rp' y'].
  simpl in *. repeat split; simpl.
  - now apply boxes_from_set.
  - assumption.
  - unfold module_spacing. lia.
Qed.

Lemma place_leftover_sound (ix : Index) (m c : string) (st : LayoutState) :
  In c (sorted_connectors (right_connectors ix) m) ->
  layout_sound py_float ix st ->
  layout_sound py_float ix (place_leftover py_float ix m st c).
Proof.
  intros Hc (Hl & Hr & Hy). apply sorted_connectors_In in Hc. destruct Hc as [Hm Hc].
  unfold place_leftover.
  destruct (Dict.mem (right_positions st) (conn_key m c)); [now repeat split|].
  pose proof (make_box_height_pos (right_connectors ix) right_x (current_y st) m c) as Hh.
  repeat split; simpl.
  - assumption.
  - now apply boxes_from_set.
  - unfold connector_padding. simpl in Hh. lia.
Qed.

Lemma layout_is_sound (ix : Index) : layout_sound py_float ix (layout py_float ix).
Proof.
  unfold layout, place_leftovers, place_left.
  apply fold_left_inv.
  - apply fold_left_inv.
    + repeat split; try (intros k p []). unfold margin_y. simpl. lia.
    + intros st1 m _ H1. apply fold_left_inv; [assumption|].
      intros st2 c Hc H2. now apply place_left_connector_sound.
  - intros st1 m _ H1. apply fold_left_inv; [assumption|].
    intros st2 c Hc H2. now apply place_leftover_sound.
Qed.


(** ** Every connector gets a box *)

Lemma place_leftover_keys (ix : Index) (m c : string) (st : LayoutState) (k : string) :
  k = conn_key m c \/ In k (keys (right_positions st)) ->
  In k (keys (right_positions (place_leftover py_float ix m st c))).
Proof.
  unfold place_leftover.
  destruct (Dict.mem (right_positions st) (conn_key m c)) eqn:E.
  - intros [->|H]; [now apply mem_true | assumption].
  - simpl. rewrite keys_set, E. intros [->|H]; apply in_or_app; [right; now left | now left].
Qed.

Lemma right_connectors_placed (ix : Index) (m c : string) :
  In m (keys (right_connectors ix)) ->
  In c (keys (get_or [] (right_connectors ix) m)) ->
  In (conn_key m c) (keys (right_positions (layout py_float ix))).
Proof.
  intros Hm Hc. unfold layout, place_leftovers. rewrite nested_fold_flat.
  apply (fold_left_reach (fun c st => In (pair_key c) (keys (right_positions st)))
           _ _ _ (m, c)).
  - intros st. apply place_leftover_keys. now left.
  - intros st c' H. apply place_leftover_keys. now right.
  - apply in_flat_map. exists m. split; [now apply In_sorted|].
    apply in_map. now apply In_sorted_connectors.
Qed.

Lemma left_connectors_placed (ix : Index) (m c : string) :
  In m (keys (left_connectors ix)) ->
  In c (keys (get_or [] (left_connectors ix) m)) ->
  In (conn_key m c) (keys (left_positions (layout py_float ix))).
Proof.
  intros Hm Hc. apply (left_order_placed ix (m, c)).
  unfold left_order. apply in_flat_map. exists m. split; [now apply sorted_left_modules_In|].
  apply in_map. now apply In_sorted_connectors.
Qed.


(** ** The provisional placement *)

Lemma initial_connector_ok (d : ModsDict) (is_left : bool) (m c : string) (st : dict Position * Z) :
  column_ok (fst st) (snd st) ->
  column_ok (fst (initial_connector py_float d is_left m st c))
            (snd (initial_connector py_float d is_left m st c)) /\
  (forall k, k = conn_key m c \/ In k (keys (fst st)) ->
             In k (keys (fst (initial_connector py_float d is_left m st c)))).
Proof.
  destruct st as [positions y]. simpl. intros H.
  pose proof (make_box_height_pos d (if is_left then margin_x else right_x) y m c) as Hh.
  split.
  - apply (column_ok_set positions y); [assumption | simpl; lia | assumption |].
    unfold bottom, connector_padding. simpl in *. lia.
  - intros k Hk. rewrite keys_set.
    destruct (Dict.mem positions (conn_key m c)) eqn:E; destruct Hk as [->|Hk].
    + now apply mem_true.
    + assumption.
    + apply in_or_app. right. now left.
    + apply in_or_app. now left.
Qed.

Lemma initial_module_ok (d : ModsDict) (is_left : bool) (m : string) (st : dict Position * Z) :
  column_ok (fst st) (snd st) ->
  column_ok (fst (initial_module py_float d is_left st m))
            (snd (initial_module py_float d is_left st m)) /\
  (forall k, In k (keys (fst st)) -> In k (keys (fst (initial_module py_float d is_left st m)))) /\
  (forall c, In c (sorted_connectors d m) ->
             In (conn_key m c) (keys (fst (initial_module py_float d is_left st m)))).
Proof.
  intros H. unfold initial_module.
  assert (Hinner : column_ok
            (fst (fold_left (initial_connector py_float d is_left m) (sorted_connectors d m) st))
            (snd (fold_left (initial_connector py_float d is_left m) (sorted_connectors d m) st))).
  { apply (fold_left_inv (fun s => column_ok (fst s) (snd s))); [assumption|].
    intros s c _ Hs. now apply initial_connector_ok. }
  assert (Hkeep : forall k, In k (keys (fst st)) ->
            In k (keys (fst (fold_left (initial_connector py_float d is_left m)
                                       (sorted_connectors d m) st)))).
  { intros k Hk.
    apply (fold_left_inv (fun s => In k (keys (fst s)))); [assumption|].
    intros s c _ Hs.
    destruct s as [pos y]. simpl. rewrite keys_set.
    destruct (Dict.mem pos (conn_key m c)); [assumption | apply in_or_app; now left]. }
  assert (Hnew : forall c, In c (sorted_connectors d m) ->
            In (conn_key m c)
               (keys (fst (fold_left (initial_connector py_float d is_left m)
                                     (sorted_connectors d m) st)))).
  { intros c Hc.
    apply (fold_left_reach (fun c s => In (conn_key m c) (keys (fst s)))); [| |assumption].
    - intros [pos y]. simpl. rewrite keys_set.
      destruct (Dict.mem pos (conn_key m c)) eqn:E;
        [now apply mem_true | apply in_or_app; right; now left].
    - intros [pos y] c' Hs. simpl in *. rewrite keys_set.
      destruct (Dict.mem pos (conn_key m c')); [assumption | apply in_or_app; now left]. }
  destruct (fold_left (initial_connector py_float d is_left m) (sorted_connectors d m) st)
    as [positions y].
  simpl in *. split; [|split; assumption].
  apply (column_ok_mono _ y); [exact Hinner | unfold module_spacing; lia].
Qed.

Lemma initial_modules_ok (d : ModsDict) (is_left : bool) (ms : list string)
    (st : dict Position * Z) :
  column_ok (fst st) (snd st) ->
  column_ok (fst (fold_left (initial_module py_float d is_left) ms st))
            (snd (fold_left (initial_module py_float d is_left) ms st)) /\
  (forall k, In k (keys (fst st)) ->
             In k (keys (fst (fold_left (initial_module py_float d is_left) ms st)))) /\
  (forall m c, In m ms -> In c (sorted_connectors d m) ->
               In (conn_key m c)
                  (keys (fst (fold_left (initial_module py_float d is_left) ms st)))).
Proof.
  revert st. induction ms as [|m0 t IH]; intros st Hst; simpl.
  - split; [assumption|]. split; [auto | intros m c []].
  - destruct (initial_module_ok d is_left m0 st Hst) as (Hok & Hkeep & Hnew).
    destruct (IH _ Hok) as (IH1 & IH2 & IH3).
    split; [assumption|]. split; [auto|].
    intros m c [->|Hm] Hc; [apply IH2; now apply Hnew | now apply IH3].
Qed.


(** ** The signal shown for a pin *)

Lemma add_pin_nonempty (d : ModsDict) (m c p : string) (e : PinConn) :
  pins_nonempty d -> pins_nonempty (add_pin d m c p e).
Proof.
  intros H m' c' p' Hin. rewrite pins_at_add_pin.
  destruct (String.eqb m' m && String.eqb c' c && String.eqb p' p) eqn:E.
  - intros Habs. apply app_eq_nil in Habs. destruct Habs as [_ Habs]. discriminate.
  - apply H. unfold add_pin in Hin. rewrite get_or_set in Hin.
    destruct (String.eqb_spec m' m) as [->|]; [|assumption].
    rewrite get_or_set in Hin.
    destruct (String.eqb_spec c' c) as [->|]; [|assumption].
    rewrite keys_set in Hin.
    destruct (Dict.mem (get_or [] (get_or [] d m) c) p); [assumption|].
    apply in_app_or in Hin. destruct Hin as [Hin|[<-|[]]]; [assumption|].
    simpl in E. now rewrite String.eqb_refl in E.
Qed.

Lemma index_pins_nonempty (rs : list Connection) (ix : Index) :
  pins_nonempty (left_connectors ix) -> pins_nonempty (right_connectors ix) ->
  pins_nonempty (left_connectors (index_from ix rs)) /\
  pins_nonempty (right_connectors (index_from ix rs)).
Proof.
  revert ix. induction rs as [|r t IH]; intros ix Hl Hr; simpl; [now split|].
  apply IH; unfold index_row;
    destruct (is_valid_signal (signal1 r)), (is_valid_signal (signal2 r)); simpl;
    try assumption; now apply add_pin_nonempty.
Qed.

Lemma build_index_pins_nonempty (rs : list Row) :
  pins_nonempty (left_connectors (build_index rs)) /\
  pins_nonempty (right_connectors (build_index rs)).
Proof.
  apply index_pins_nonempty; intros m c p H; simpl in H; contradiction.
Qed.

Lemma filtered_rows_ascend (g : Connection -> bool) (rs : list Row) (k : nat) :
  StronglySorted lt (map row_idx (filter g (iterrows k rs))) /\
  Forall (fun i => (k <= i)%nat) (map row_idx (filter g (iterrows k rs))).
Proof.
  revert k. induction rs as [|r t IH]; intros k; simpl; [split; constructor|].
  destruct (IH (S k)) as [Hs Hf].
  assert (Hf' : Forall (fun i => (k < i)%nat) (map row_idx (filter g (iterrows (S k) t)))).
  { eapply Forall_impl; [|exact Hf]. intros i Hi. simpl in Hi. lia. }
  destruct (g (read_row k r)); simpl.
  - split; constructor; auto.
    eapply Forall_impl; [|exact Hf']. intros i Hi. simpl in Hi. lia.
  - split; [assumption|]. eapply Forall_impl; [|exact Hf']. intros i Hi. simpl in Hi. lia.
Qed.

Lemma head_is_first_row (s : string) (l : list PinConn) :
  l <> [] -> StronglySorted lt (map pc_row_idx l) ->
  shows_first_row (mkPinData s (first_signal l) l).
Proof.
  destruct l as [|e rest]; [contradiction|]. intros _ Hs.
  exists e, rest. simpl. repeat split.
  simpl in Hs. apply StronglySorted_inv in Hs. destruct Hs as [_ Hf].
  rewrite Forall_map in Hf. exact Hf.
Qed.

Lemma In_make_pins_list (pins_dict : PinsDict) (pd : PinData) :
  In pd (make_pins_list py_float pins_dict) ->
  exists pin, In pin (keys pins_dict) /\
              pd = mkPinData pin (first_signal (get_or [] pins_dict pin)) (get_or [] pins_dict pin).
Proof.
  unfold make_pins_list. intros H. apply in_map_iff in H. destruct H as [pin [<- Hin]].
  exists pin. split; [|reflexivity].
  unfold sorted_pins, sorted_key in Hin. now apply (proj1 (In_sorted _ _ _)) in Hin.
Qed.


(** ** Lane bands *)

Lemma lane_band_ge (p : Position) : 12 <= lane_band p.
Proof. unfold lane_band, spacing. lia. Qed.

Lemma lanes_ok_set (positions : dict Position) (offsets : dict Z) (cur : Z) (k : string) :
  lanes_ok positions offsets cur ->
  lanes_ok positions (Dict.set offsets k cur) (cur + lane_band (get_or no_box positions k)).
Proof.
  intros (H0 & Hnd & Hb & Ha).
  pose proof (lane_band_ge (get_or no_box positions k)) as Hk.
  split; [lia|]. split; [now apply NoDup_set|]. split.
  - intros k' v Hin. apply In_set in Hin; [|assumption].
    destruct Hin as [[-> ->]|[_ Hin]]; [lia|].
    specialize (Hb k' v Hin). lia.
  - intros k1 v1 k2 v2 H1 H2 Hne.
    apply In_set in H1; [|assumption]. apply In_set in H2; [|assumption].
    destruct H1 as [[-> ->]|[_ H1]], H2 as [[-> ->]|[_ H2]].
    + contradiction.
    + specialize (Hb k2 v2 H2). lia.
    + specialize (Hb k1 v1 H1). lia.
    + exact (Ha k1 v1 k2 v2 H1 H2 Hne).
Qed.

Lemma left_offsets_lanes (left_pos : dict Position) (l : list (string * string)) :
  lanes_ok left_pos (fst (left_offsets_upto left_pos l)) (snd (left_offsets_upto left_pos l)).
Proof.
  unfold left_offsets_upto.
  apply (fold_left_inv (fun st => lanes_ok left_pos (fst st) (snd st))).
  - simpl. repeat split; try constructor; try lia; intros; contradiction.
  - intros [offs cur] c _ H. unfold left_offset_step. simpl in *.
    destruct (Dict.get left_pos (conn_key (fst c) (snd c))) as [p|] eqn:E; [|assumption].
    simpl. pose proof (lanes_ok_set left_pos offs cur (conn_key (fst c) (snd c)) H) as H'.
    unfold get_or in H'. rewrite E in H'. unfold lane_band in H'.
    replace (cur + Z.of_nat (Datatypes.length (pos_pins p)) * spacing + spacing)
      with (cur + (Z.of_nat (Datatypes.length (pos_pins p)) * spacing + spacing)) by lia.
    exact H'.
Qed.

Lemma right_offsets_lanes (right_pos : dict Position) (ks : list string) :
  lanes_ok right_pos (fst (right_offsets_upto right_pos ks)) (snd (right_offsets_upto right_pos ks)).
Proof.
  unfold right_offsets_upto, right_offsets_loop.
  apply (fold_left_inv (fun st => lanes_ok right_pos (fst st) (snd st))).
  - simpl. repeat split; try constructor; try lia; intros; contradiction.
  - intros [offs cur] k _ H. simpl in *.
    pose proof (lanes_ok_set right_pos offs cur k H) as H'. unfold lane_band, no_box in H'.
    replace (cur
             + Z.of_nat (Datatypes.length
                           (pos_pins (get_or (mkPos 0 0 0 0 [] "" "") right_pos k))) * spacing
             + spacing)
      with (cur + (Z.of_nat (Datatypes.length
                               (pos_pins (get_or (mkPos 0 0 0 0 [] "" "") right_pos k))) * spacing
                   + spacing)) by lia.
    exact H'.
Qed.

Lemma left_offsets_cover (left_pos : dict Position) (l : list (string * string))
    (c : string * string) :
  In c l -> In (pair_key c) (keys left_pos) ->
  In (pair_key c) (keys (fst (left_offsets_upto left_pos l))).
Proof.
  intros Hin Hk. unfold left_offsets_upto.
  apply (fold_left_reach (fun c st => In (pair_key c) (keys (fst st)))); [| |assumption].
  - intros st. rewrite left_offset_step_found by assumption. simpl. rewrite keys_set.
    destruct (Dict.mem (fst st) (pair_key c)) eqn:E;
      [now apply mem_true | apply in_or_app; right; now left].
  - intros [offs cur] c' H. unfold left_offset_step. simpl in *.
    destruct (Dict.get left_pos (conn_key (fst c') (snd c'))); [|assumption].
    simpl. rewrite keys_set.
    destruct (Dict.mem offs (conn_key (fst c') (snd c'))); [assumption | apply in_or_app; now left].
Qed.

Lemma right_offsets_cover (right_pos : dict Position) (ks : list string) (k : string) :
  In k ks -> In k (keys (fst (right_offsets_upto right_pos ks))).
Proof.
  intros Hin. unfold right_offsets_upto, right_offsets_loop.
  apply (fold_left_reach (fun k st => In k (keys (fst st)))); [| |assumption].
  - intros [offs cur]. simpl. rewrite keys_set.
    destruct (Dict.mem offs k) eqn:E; [now apply mem_true | apply in_or_app; right; now left].
  - intros [offs cur] k' H. simpl in *. rewrite keys_set.
    destruct (Dict.mem offs k'); [assumption | apply in_or_app; now left].
Qed.

Lemma get_or_In {V : Type} (dflt : V) (d : dict V) (k : string) :
  In k (keys d) -> In (k, get_or dflt d k) d.
Proof.
  intros H. unfold get_or. destruct (Dict.get d k) eqn:E; [now apply get_In|].
  apply get_None in E. contradiction.
Qed.

(** Every LEFT box was placed for a connector of the walk. *)
Lemma left_box_in_order (ix : Index) (k : string) (p : Position) :
  In (k, p) (left_positions (layout py_float ix)) ->
  exists c, In c (left_order py_float ix) /\ k = pair_key c.
Proof.
  intros Hin. destruct (layout_is_sound ix) as (Hl & _ & _).
  destruct (Hl k p Hin) as (m & c & y & Hm & Hc & _ & -> & _).
  exists (m, c). split; [|reflexivity].
  unfold left_order. apply in_flat_map. exists m. split; [now apply sorted_left_modules_In|].
  apply in_map. now apply In_sorted_connectors.
Qed.

Lemma find_pin_idx_bound (pins : list PinData) (r k i : nat) :
  find_pin_idx pins r k = Some i -> (k <= i < k + List.length pins)%nat.
Proof.
  revert k. induction pins as [|p t IH]; intros k; simpl; [discriminate|].
  destruct (existsb _ _).
  - intros E. inversion E. lia.
  - intros E. apply IH in E. lia.
Qed.

(** What [route] computes when it draws a wire. *)
Lemma route_points (b : Boxes) (n : nat) (conn : Connection) (w : Wire) :
  route b n conn = Some w ->
  exists lp rp li ri source_id target_id,
    Dict.get (b_left b) (left_key_of conn) = Some lp /\
    Dict.get (b_right b) (right_key_of conn) = Some rp /\
    Dict.get (b_pin_ids b) (pin_id_key false (mod1 conn) (conn1 conn) (row_idx conn))
      = Some source_id /\
    Dict.get (b_pin_ids b) (pin_id_key true (mod2 conn) (conn2 conn) (row_idx conn))
      = Some target_id /\
    find_pin_idx (pos_pins lp) (row_idx conn) 0 = Some li /\
    find_pin_idx (pos_pins rp) (row_idx conn) 0 = Some ri /\
    w = mkWire n (row_idx conn) source_id target_id
          [(pos_x lp + pos_width lp + 5 + base_offset
              + get_or 0 (b_left_offsets b) (left_key_of conn) + Z.of_nat li * spacing,
            pos_y lp + pin_start_y + Z.of_nat li * pin_height + 4);
           (pos_x lp + pos_width lp + 5 + base_offset
              + get_or 0 (b_left_offsets b) (left_key_of conn) + Z.of_nat li * spacing,
            pos_y rp + pin_start_y + Z.of_nat ri * pin_height + 4);
           (pos_x rp - 5 - base_offset
              - get_or 0 (b_right_offsets b) (right_key_of conn) - Z.of_nat ri * spacing,
            pos_y rp + pin_start_y + Z.of_nat ri * pin_height + 4)].
Proof.
  unfold route, left_pin_idx, right_pin_idx. intros H.
  destruct (Dict.get (b_left b) (left_key_of conn)) as [lp|] eqn:E1; [|discriminate].
  destruct (Dict.get (b_right b) (right_key_of conn)) as [rp|] eqn:E2; [|discriminate].
  destruct (Dict.get (b_pin_ids b) (pin_id_key false _ _ _)) as [source_id|] eqn:E3;
    [|discriminate].
  destruct (Dict.get (b_pin_ids b) (pin_id_key true _ _ _)) as [target_id|] eqn:E4;
    [|discriminate].
  destruct (find_pin_idx (pos_pins lp) (row_idx conn) 0) as [li|] eqn:E5; [|discriminate].
  destruct (find_pin_idx (pos_pins rp) (row_idx conn) 0) as [ri|] eqn:E6; [|discriminate].
  injection H as <-. exists lp, rp, li, ri, source_id, target_id. repeat split; assumption.
Qed.

(** ** Wires between the columns *)

Lemma left_box_geometry (ix : Index) (k : string) (p : Position) :
  In (k, p) (left_positions (layout py_float ix)) ->
  pos_x p = margin_x /\ pos_width p = connector_width /\
  pos_height p = connector_height (pos_pins p).
Proof.
  intros Hin. destruct (layout_is_sound ix) as (Hl & _ & _).
  destruct (Hl k p Hin) as (m & c & y & _ & _ & _ & _ & ->). repeat split.
Qed.

Lemma right_box_geometry (ix : Index) (k : string) (p : Position) :
  In (k, p) (right_positions (layout py_float ix)) ->
  pos_x p = right_x /\ pos_width p = connector_width /\
  pos_height p = connector_height (pos_pins p).
Proof.
  intros Hin. destruct (layout_is_sound ix) as (_ & Hr & _).
  destruct (Hr k p Hin) as (m & c & y & _ & _ & _ & _ & ->). repeat split.
Qed.

Lemma lanes_get_or_nonneg (positions : dict Position) (offsets : dict Z) (cur : Z) (k : string) :
  lanes_ok positions offsets cur -> 0 <= get_or 0 offsets k.
Proof.
  intros (_ & _ & Hb & _). unfold get_or. destruct (Dict.get offsets k) eqn:E; [|lia].
  apply get_In in E. now apply (Hb k z).
Qed.

Lemma draw_boxes (ix : Index) : d_boxes (draw py_float ix) = boxes_of py_float ix.
Proof. reflexivity. Qed.

Lemma draw_wire_routed (ix : Index) (w : Wire) :
  In w (d_wires (draw py_float ix)) ->
  exists conn n, In conn (connections ix) /\ route (d_boxes (draw py_float ix)) n conn = Some w.
Proof.
  unfold draw. simpl. intros H. apply route_loop_sound in H.
  destruct H as [[]|H]. exact H.
Qed.

(** X7. Every wire of the diagram belongs to an entry of [connections]
    whose two boxes exist, and runs orthogonally between them: three
    waypoints, the first two in a lane at x >= 325 (right of the LEFT
    column), the last at x <= 705 (left of the RIGHT column); it leaves at
    a height strictly inside the span of its LEFT box and arrives at a
    height strictly inside the span of its RIGHT box. *)
Theorem wires_run_between_their_boxes (rs : list Row) (w : Wire) :
  In w (d_wires (draw py_float (build_index rs))) ->
  exists conn lp rp,
    In conn (connections (build_index rs)) /\ row_idx conn = w_row_idx w /\
    Dict.get (b_left (d_boxes (draw py_float (build_index rs)))) (left_key_of conn) = Some lp /\
    Dict.get (b_right (d_boxes (draw py_float (build_index rs)))) (right_key_of conn) = Some rp /\
    orthogonal_between lp rp w.
Proof.
  set (ix := build_index rs). intros Hw.
  apply draw_wire_routed in Hw. destruct Hw as (conn & n & Hconn & Hroute).
  apply route_points in Hroute.
  destruct Hroute as (lp & rp & li & ri & sid & tid & Hl & Hr & _ & _ & Hli & Hri & ->).
  exists conn, lp, rp. repeat split; try assumption.
  pose proof Hl as Hl'. pose proof Hr as Hr'.
  rewrite draw_left in Hl'. rewrite draw_right in Hr'.
  apply get_In in Hl'. apply get_In in Hr'.
  destruct (left_box_geometry ix _ _ Hl') as (Hx1 & Hw1 & Hh1).
  destruct (right_box_geometry ix _ _ Hr') as (Hx2 & Hw2 & Hh2).
  apply find_pin_idx_bound in Hli. apply find_pin_idx_bound in Hri.
  pose proof (lanes_get_or_nonneg _ _ _ (left_key_of conn)
                (left_offsets_lanes (left_positions (layout py_float ix))
                                    (left_order py_float ix))) as Ho1.
  pose proof (lanes_get_or_nonneg _ _ _ (right_key_of conn)
                (right_offsets_lanes (right_positions (layout py_float ix))
                                     (keys (right_positions (layout py_float ix))))) as Ho2.
  rewrite <- draw_left_offsets in Ho1. rewrite <- draw_right_offsets in Ho2.
  unfold orthogonal_between. do 4 eexists. split; [reflexivity|].
  unfold bottom. rewrite Hx1, Hw1, Hx2, Hh1, Hh2.
  unfold connector_height, right_x, margin_x, connector_width, horizontal_gap, base_offset,
    spacing, pin_start_y, pin_height.
  fold ix. repeat split; lia.
Qed.

(** X8. Wires of different connectors never share a lane: two wires that
    leave different LEFT connectors have exit lanes at least 24 apart, and
    two wires that reach different RIGHT connectors have entry lanes at
    least 24 apart. *)
Theorem lanes_of_different_connectors (rs : list Row) (c1 c2 : Connection) (n1 n2 : nat)
    (w1 w2 : Wire) :
  route (d_boxes (draw py_float (build_index rs))) n1 c1 = Some w1 ->
  route (d_boxes (draw py_float (build_index rs))) n2 c2 = Some w2 ->
  (left_key_of c1 <> left_key_of c2 -> 24 <= Z.abs (exit_x w1 - exit_x w2)) /\
  (right_key_of c1 <> right_key_of c2 -> 24 <= Z.abs (entry_x w1 - entry_x w2)).
Proof.
  set (ix := build_index rs). intros H1 H2.
  apply route_points in H1.
  destruct H1 as (lp1 & rp1 & li1 & ri1 & s1 & t1 & Hl1 & Hr1 & _ & _ & Hli1 & Hri1 & ->).
  apply route_points in H2.
  destruct H2 as (lp2 & rp2 & li2 & ri2 & s2 & t2 & Hl2 & Hr2 & _ & _ & Hli2 & Hri2 & ->).
  apply find_pin_idx_bound in Hli1, Hri1, Hli2, Hri2.
  rewrite draw_left in Hl1, Hl2. rewrite draw_right in Hr1, Hr2.
  rewrite draw_left_offsets, draw_right_offsets. fold ix in Hl1, Hl2, Hr1, Hr2 |- *.
  unfold exit_x, entry_x. cbn [w_points].
  split; intros Hne.
  - pose proof (get_In _ _ _ Hl1) as I1. pose proof (get_In _ _ _ Hl2) as I2.
    destruct (left_box_geometry ix _ _ I1) as (Hx1 & Hw1 & _).
    destruct (left_box_geometry ix _ _ I2) as (Hx2 & Hw2 & _).
    destruct (left_offsets_lanes (left_positions (layout py_float ix)) (left_order py_float ix))
      as (_ & _ & _ & Ha).
    assert (Hcover : forall k p, In (k, p) (left_positions (layout py_float ix)) ->
              In (k, get_or 0 (fst (left_offsets_upto (left_positions (layout py_float ix))
                                                      (left_order py_float ix))) k)
                 (fst (left_offsets_upto (left_positions (layout py_float ix))
                                         (left_order py_float ix)))).
    { intros k p Hin. apply get_or_In.
      destruct (left_box_in_order ix k p Hin) as (c & Hc & ->).
      apply left_offsets_cover; [assumption|]. now apply (in_map fst) in Hin. }
    specialize (Ha _ _ _ _ (Hcover _ _ I1) (Hcover _ _ I2) Hne).
    assert (G1 : get_or no_box (left_positions (layout py_float ix)) (left_key_of c1) = lp1)
      by (unfold get_or; now rewrite Hl1).
    assert (G2 : get_or no_box (left_positions (layout py_float ix)) (left_key_of c2) = lp2)
      by (unfold get_or; now rewrite Hl2).
    rewrite G1, G2 in Ha.
    unfold lane_band in Ha. rewrite Hx1, Hw1, Hx2, Hw2.
    unfold spacing in *. lia.
  - pose proof (get_In _ _ _ Hr1) as I1. pose proof (get_In _ _ _ Hr2) as I2.
    destruct (right_box_geometry ix _ _ I1) as (Hx1 & _ & _).
    destruct (right_box_geometry ix _ _ I2) as (Hx2 & _ & _).
    destruct (right_offsets_lanes (right_positions (layout py_float ix))
                                  (keys (right_positions (layout py_float ix))))
      as (_ & _ & _ & Ha).
    assert (Hcover : forall k p, In (k, p) (right_positions (layout py_float ix)) ->
              In (k, get_or 0 (fst (right_offsets_upto (right_positions (layout py_float ix))
                                      (keys (right_positions (layout py_float ix))))) k)
                 (fst (right_offsets_upto (right_positions (layout py_float ix))
                         (keys (right_positions (layout py_float ix)))))).
    { intros k p Hin. apply get_or_In. apply right_offsets_cover.
      now apply (in_map fst) in Hin. }
    specialize (Ha _ _ _ _ (Hcover _ _ I1) (Hcover _ _ I2) Hne).
    assert (G1 : get_or no_box (right_positions (layout py_float ix)) (right_key_of c1) = rp1)
      by (unfold get_or; now rewrite Hr1).
    assert (G2 : get_or no_box (right_positions (layout py_float ix)) (right_key_of c2) = rp2)
      by (unfold get_or; now rewrite Hr2).
    rewrite G1, G2 in Ha.
    unfold lane_band in Ha. rewrite Hx1, Hx2.
    unfold spacing in *. lia.
Qed.

(** ** Cell ids *)

Lemma pin_id_key_side (is_right : bool) (m c : string) (r : nat) :
  String.prefix "right:" (pin_id_key is_right m c r) = is_right /\
  String.prefix "left:" (pin_id_key is_right m c r) = negb is_right.
Proof.
  unfold pin_id_key.
  destruct is_right; split; simpl; try reflexivity;
    match goal with |- String.prefix EmptyString ?t = _ => now destruct t end.
Qed.

Lemma register_pin_entries (is_right : bool) (m c : string) (st : nat * dict nat) (pd : PinData) :
  fst (register_pin is_right m c st pd) = (fst st + 2)%nat /\
  forall k v, In (k, v) (snd (register_pin is_right m c st pd)) ->
    In (k, v) (snd st) \/ (v = fst st /\ String.prefix "right:" k = is_right).
Proof.
  destruct st as [cell ids]. simpl. split; [reflexivity|].
  apply (fold_left_inv
           (fun d => forall k v, In (k, v) d ->
                       In (k, v) ids \/ (v = cell /\ String.prefix "right:" k = is_right))).
  - intros k v H. now left.
  - intros d e _ Hd k v Hin. apply In_set_weak in Hin. destruct Hin as [[-> ->]|Hin].
    + right. split; [reflexivity | apply pin_id_key_side].
    + now apply Hd.
Qed.

Lemma create_connector_box_entries (is_right : bool) (st : nat * dict nat) (pos : Position) :
  (fst st < fst (create_connector_box is_right st pos))%nat /\
  forall k v, In (k, v) (snd (create_connector_box is_right st pos)) ->
    In (k, v) (snd st)
    \/ ((fst st < v < fst (create_connector_box is_right st pos))%nat
        /\ String.prefix "right:" k = is_right).
Proof.
  destruct st as [cell ids]. unfold create_connector_box. simpl fst at 1 3. simpl snd at 2.
  apply (fold_left_inv
           (fun s : nat * dict nat => (cell < fst s)%nat /\
                     forall k v, In (k, v) (snd s) ->
                       In (k, v) ids
                       \/ ((cell < v < fst s)%nat /\ String.prefix "right:" k = is_right))).
  - simpl. split; [lia | intros k v H; now left].
  - intros s pd _ [Hlt Hs].
    destruct (register_pin_entries is_right (pos_module pos) (pos_connector pos) s pd) as [Hf He].
    cbv beta. rewrite Hf. split; [lia|]. intros k v Hin. apply He in Hin.
    destruct Hin as [Hin|[-> Hp]].
    + destruct (Hs k v Hin) as [H|[H1 H2]]; [now left | right; split; [lia | assumption]].
    + right. split; [lia | assumption].
Qed.

Lemma create_boxes_entries (is_right : bool) (positions : dict Position) (st : nat * dict nat) :
  (fst st <= fst (create_boxes is_right positions st))%nat /\
  forall k v, In (k, v) (snd (create_boxes is_right positions st)) ->
    In (k, v) (snd st)
    \/ ((fst st < v < fst (create_boxes is_right positions st))%nat
        /\ String.prefix "right:" k = is_right).
Proof.
  unfold create_boxes.
  apply (fold_left_inv
           (fun s : nat * dict nat => (fst st <= fst s)%nat /\
                     forall k v, In (k, v) (snd s) ->
                       In (k, v) (snd st)
                       \/ ((fst st < v < fst s)%nat /\ String.prefix "right:" k = is_right))).
  - split; [lia | intros k v H; now left].
  - intros s key _ [Hle Hs]. cbv beta.
    destruct (Dict.get positions key) as [pos|]; [|now split].
    destruct (create_connector_box_entries is_right s pos) as [Hlt He].
    split; [lia|]. intros k v Hin. apply He in Hin.
    destruct Hin as [Hin|[H1 H2]].
    + destruct (Hs k v Hin) as [H|[H1 H2]]; [now left | right; split; [lia | assumption]].
    + right. split; [lia | assumption].
Qed.

Lemma draw_pin_ids (ix : Index) :
  b_pin_ids (d_boxes (draw py_float ix)) =
  snd (create_boxes true (right_positions (layout py_float ix))
         (create_boxes false (left_positions (layout py_float ix)) (2%nat, []))).
Proof.
  unfold draw, boxes_of. simpl.
  destruct (create_boxes false (left_positions (layout py_float ix)) (2%nat, [])) as [n ids].
  now destruct (create_boxes true (right_positions (layout py_float ix)) (n, ids)).
Qed.

Lemma route_loop_ids (b : Boxes) (conns : list Connection) (n : nat) (ws : list Wire) :
  exists k,
    fst (fold_left (route_step b) conns (n, ws)) = (n + k)%nat /\
    map w_edge_id (snd (fold_left (route_step b) conns (n, ws)))
    = map w_edge_id ws ++ seq n k.
Proof.
  revert n ws. induction conns as [|c t IH]; intros n ws; simpl.
  - exists 0%nat. simpl. split; [lia | now rewrite app_nil_r].
  - destruct (route b n c) as [w|] eqn:E; [|apply IH].
    destruct (IH (S n) (ws ++ [w])) as (k & Hf & Hm).
    exists (S k). rewrite Hf, Hm. split; [lia|].
    rewrite map_app, <- app_assoc. simpl. do 2 f_equal.
    apply route_points in E. destruct E as (? & ? & ? & ? & ? & ? & _ & _ & _ & _ & _ & _ & ->).
    reflexivity.
Qed.

(** X9. Cell ids never clash on a wire: the ids of the wires are the
    consecutive numbers that start at the first id left free by the
    boxes, pins and labels; and every wire joins a LEFT pin to a RIGHT pin
    with 2 < source id < target id < the wire's own id. *)
Theorem wire_ids_are_fresh (rs : list Row) :
  map w_edge_id (d_wires (draw py_float (build_index rs)))
  = seq (first_edge_id py_float (build_index rs))
        (List.length (d_wires (draw py_float (build_index rs)))) /\
  forall w, In w (d_wires (draw py_float (build_index rs))) ->
    (2 < w_source w < w_target w)%nat /\ (w_target w < w_edge_id w)%nat.
Proof.
  set (ix := build_index rs).
  assert (Hseq : map w_edge_id (d_wires (draw py_float ix))
                 = seq (first_edge_id py_float ix) (List.length (d_wires (draw py_float ix)))).
  { unfold draw. simpl.
    destruct (route_loop_ids (boxes_of py_float ix) (connections ix)
                (first_edge_id py_float ix) []) as (k & _ & Hm).
    simpl in Hm. rewrite <- (length_map w_edge_id), Hm, length_seq. reflexivity. }
  split; [exact Hseq|].
  intros w Hw.
  assert (Hedge : (first_edge_id py_float ix <= w_edge_id w)%nat).
  { apply (in_map w_edge_id) in Hw. rewrite Hseq in Hw. apply in_seq in Hw. lia. }
  apply draw_wire_routed in Hw. destruct Hw as (conn & n & _ & Hroute).
  apply route_points in Hroute.
  destruct Hroute as (lp & rp & li & ri & sid & tid & _ & _ & Hs & Ht & _ & _ & ->).
  cbn [w_source w_target w_edge_id] in *.
  rewrite draw_pin_ids in Hs, Ht. apply get_In in Hs. apply get_In in Ht.
  unfold first_edge_id in Hedge.
  destruct (create_boxes_entries false (left_positions (layout py_float ix)) (2%nat, []))
    as [Hle1 He1].
  destruct (create_boxes_entries true (right_positions (layout py_float ix))
              (create_boxes false (left_positions (layout py_float ix)) (2%nat, [])))
    as [Hle2 He2].
  fold ix in Hs, Ht, Hedge. simpl in Hle1.
  apply He2 in Hs. apply He2 in Ht.
  destruct Hs as [Hs|[_ Hs]];
    [|rewrite (proj1 (pin_id_key_side false _ _ _)) in Hs; discriminate].
  apply He1 in Hs. destruct Hs as [[]|[Hs _]]. simpl in Hs.
  destruct Ht as [Ht|[Ht _]].
  - apply He1 in Ht. destruct Ht as [[]|[_ Ht]].
    rewrite (proj1 (pin_id_key_side true _ _ _)) in Ht. discriminate.
  - lia.
Qed.

(** ** Module names without a colon *)

Lemma has_colon_conn_key (m c : string) : has_colon (conn_key m c) = true.
Proof.
  unfold conn_key. induction m as [|a t IH]; simpl in *; [reflexivity|].
  rewrite IH. apply orb_true_r.
Qed.

Lemma conn_key_inj (m c m' c' : string) :
  has_colon m = false -> has_colon m' = false ->
  conn_key m c = conn_key m' c' -> m = m' /\ c = c'.
Proof.
  unfold conn_key. revert m'. induction m as [|a t IH]; intros [|a' t'] Hm Hm' E; simpl in *.
  - inversion E. now split.
  - inversion E; subst a'. apply orb_false_iff in Hm'. destruct Hm' as [Hm' _]. discriminate.
  - inversion E; subst a. apply orb_false_iff in Hm. destruct Hm as [Hm _]. discriminate.
  - inversion E; subst a'. apply orb_false_iff in Hm, Hm'.
    destruct (IH t' (proj2 Hm) (proj2 Hm') H1) as [-> ->]. now split.
Qed.

Lemma initial_positions_keys (d : ModsDict) (is_left : bool) (k : string) :
  In k (keys (calculate_initial_positions py_float d is_left)) -> has_colon k = true.
Proof.
  unfold calculate_initial_positions. revert k.
  apply (fold_left_inv
           (fun st : dict Position * Z => forall k, In k (keys (fst st)) -> has_colon k = true)).
  - intros k [].
  - intros st m _ Hst. unfold initial_module.
    assert (H : forall k,
              In k (keys (fst (fold_left (initial_connector py_float d is_left m)
                                         (sorted_connectors d m) st))) ->
              has_colon k = true).
    { apply (fold_left_inv
               (fun st : dict Position * Z =>
                  forall k, In k (keys (fst st)) -> has_colon k = true)); [assumption|].
      intros [pos y] c _ Hs k. simpl. rewrite keys_set.
      destruct (Dict.mem pos (conn_key m c)); [apply Hs|].
      intros Hin. apply in_app_or in Hin.
      destruct Hin as [Hin|[<-|[]]]; [now apply Hs | apply has_colon_conn_key]. }
    destruct (fold_left (initial_connector py_float d is_left m) (sorted_connectors d m) st).
    exact H.
Qed.

(** With every centre at 0 the stable sort keeps the dictionary order. *)
Lemma zero_centres_keep_order (rs : list Row) :
  (forall m, In m (keys (left_connectors (build_index rs))) ->
             Dict.mem (temp_left py_float (build_index rs)) m = false) ->
  sorted_left_modules py_float (build_index rs) = first_appearance_order (iterrows 0 rs).
Proof.
  intros Hkeys. unfold sorted_left_modules, sorted_key.
  rewrite sorted_all_equal.
  - unfold left_modules. rewrite keys_fold_set, fold_see_nil, keys_left_build.
    apply first_seen_NoDup, NoDup_first_seen.
  - intros x y _ _. unfold left_modules.
    rewrite !(get_or_fold_set _ float_zero); try reflexivity;
      intros m Hm; unfold calculate_center_of_mass; now rewrite (Hkeys m Hm).
Qed.

(** X10. When no LEFT module name contains a colon, the centre-of-mass
    ordering of lines 269-275 changes nothing: the LEFT modules are placed
    in the order in which they first appear in the sheet (among the
    records with a valid source signal). *)
Theorem colon_free_modules_keep_sheet_order (rs : list Row) :
  (forall m, In m (keys (left_connectors (build_index rs))) -> has_colon m = false) ->
  sorted_left_modules py_float (build_index rs) = first_appearance_order (iterrows 0 rs).
Proof.
  intros H. apply zero_centres_keep_order. intros m Hm.
  apply mem_false. intros Hin. apply initial_positions_keys in Hin.
  rewrite (H m Hm) in Hin. discriminate.
Qed.

(** ** Every connection is drawn *)

Lemma get_or_nil_In {X : Type} (d : dict (list X)) (k : string) (x : X) :
  In x (get_or [] d k) -> In k (keys d).
Proof.
  unfold get_or. destruct (Dict.get d k) eqn:E; [|intros []].
  intros _. apply get_In in E. now apply (in_map fst) in E.
Qed.

Lemma In_keys_get_or {X : Type} (d : dict (list X)) (k : string) :
  In k (keys d) -> In (k, get_or [] d k) d.
Proof. apply get_or_In. Qed.

Lemma pins_at_keys (d : ModsDict) (m c p : string) (e : PinConn) :
  In e (pins_at d m c p) ->
  In m (keys d) /\ In c (keys (get_or [] d m)) /\ In p (keys (get_or [] (get_or [] d m) c)).
Proof.
  unfold pins_at. intros H.
  pose proof (get_or_nil_In _ _ _ H) as Hp.
  pose proof (get_or_nil_In _ _ _ (In_keys_get_or _ _ Hp)) as Hc.
  pose proof (get_or_nil_In _ _ _ (In_keys_get_or _ _ Hc)) as Hm.
  auto.
Qed.

Lemma keys_right_index (rs : list Connection) (ix : Index) :
  keys (right_connectors (index_from ix rs)) =
  fold_left see (map mod2 (filter (fun r => is_valid_signal (signal2 r)) rs))
            (keys (right_connectors ix)).
Proof.
  revert ix. induction rs as [|r t IH]; intros ix; simpl; [reflexivity|].
  rewrite IH. unfold index_row.
  destruct (is_valid_signal (signal1 r)), (is_valid_signal (signal2 r)); simpl;
    try reflexivity; unfold add_pin; now rewrite keys_set_see.
Qed.

Lemma left_module_row (rs : list Row) (m : string) :
  In m (keys (left_connectors (build_index rs))) ->
  exists r, In r (iterrows 0 rs) /\ mod1 r = m.
Proof.
  rewrite keys_left_build. unfold first_appearance_order. rewrite In_first_seen.
  intros H. apply in_map_iff in H. destruct H as [r [E Hin]].
  apply filter_In in Hin. exists r. tauto.
Qed.

Lemma right_module_row (rs : list Row) (m : string) :
  In m (keys (right_connectors (build_index rs))) ->
  exists r, In r (iterrows 0 rs) /\ mod2 r = m.
Proof.
  unfold build_index. rewrite keys_right_index, fold_see_nil, In_first_seen.
  intros H. apply in_map_iff in H. destruct H as [r [E Hin]].
  apply filter_In in Hin. exists r. tauto.
Qed.

Lemma find_pin_idx_some (pins : list PinData) (r k : nat) (pd : PinData) (e : PinConn) :
  In pd pins -> In e (pd_connections pd) -> pc_row_idx e = r ->
  exists i, find_pin_idx pins r k = Some i.
Proof.
  revert k. induction pins as [|p t IH]; intros k Hpd He Hr; [destruct Hpd|]. simpl.
  destruct (existsb (fun c => Nat.eqb (pc_row_idx c) r) (pd_connections p)) eqn:E;
    [now exists k|].
  destruct Hpd as [->|Hpd]; [|now apply IH].
  exfalso. assert (existsb (fun c => Nat.eqb (pc_row_idx c) r) (pd_connections pd) = true).
  { apply existsb_exists. exists e. split; [assumption | now apply Nat.eqb_eq]. }
  congruence.
Qed.

Lemma keys_set_mono {V : Type} (d : dict V) (k k' : string) (v : V) :
  k' = k \/ In k' (keys d) -> In k' (keys (Dict.set d k v)).
Proof.
  rewrite keys_set. destruct (Dict.mem d k) eqn:E; intros [->|H].
  - now apply mem_true.
  - assumption.
  - apply in_or_app. right. now left.
  - apply in_or_app. now left.
Qed.

Lemma register_pin_keys (is_right : bool) (m c : string) (st : nat * dict nat) (pd : PinData)
    (K : string) :
  In K (keys (snd st))
  \/ (exists e, In e (pd_connections pd) /\ K = pin_id_key is_right m c (pc_row_idx e)) ->
  In K (keys (snd (register_pin is_right m c st pd))).
Proof.
  destruct st as [cell ids]. simpl. intros [H|[e [He ->]]].
  - apply (fold_left_inv (fun d : dict nat => In K (keys d))); [assumption|].
    intros d e _ Hd. apply keys_set_mono. now right.
  - apply (fold_left_reach
             (fun e (d : dict nat) => In (pin_id_key is_right m c (pc_row_idx e)) (keys d)));
      [| |assumption].
    + intros d. apply keys_set_mono. now left.
    + intros d e' Hd. apply keys_set_mono. now right.
Qed.

Lemma create_connector_box_keys (is_right : bool) (st : nat * dict nat) (pos : Position)
    (K : string) :
  In K (keys (snd st))
  \/ (exists pd e, In pd (pos_pins pos) /\ In e (pd_connections pd) /\
                   K = pin_id_key is_right (pos_module pos) (pos_connector pos) (pc_row_idx e)) ->
  In K (keys (snd (create_connector_box is_right st pos))).
Proof.
  destruct st as [cell ids]. unfold create_connector_box. simpl snd at 1.
  intros [H|[pd [e [Hpd [He ->]]]]].
  - apply (fold_left_inv (fun s : nat * dict nat => In K (keys (snd s)))); [assumption|].
    intros s pd _ Hs. apply register_pin_keys. now left.
  - apply (fold_left_reach
             (fun pd (s : nat * dict nat) =>
                In (pin_id_key is_right (pos_module pos) (pos_connector pos) (pc_row_idx e))
                   (keys (snd s))) _ _ _ pd); [| |assumption].
    + intros s. apply register_pin_keys. right. now exists e.
    + intros s pd' Hs. apply register_pin_keys. now left.
Qed.

Lemma create_boxes_keys (is_right : bool) (positions : dict Position) (st : nat * dict nat)
    (K : string) :
  In K (keys (snd st))
  \/ (exists key pos pd e,
        Dict.get positions key = Some pos /\ In pd (pos_pins pos) /\ In e (pd_connections pd) /\
        K = pin_id_key is_right (pos_module pos) (pos_connector pos) (pc_row_idx e)) ->
  In K (keys (snd (create_boxes is_right positions st))).
Proof.
  unfold create_boxes. intros [H|[key [pos [pd [e [Hg [Hpd [He ->]]]]]]]].
  - apply (fold_left_inv (fun s : nat * dict nat => In K (keys (snd s)))); [assumption|].
    intros s key _ Hs. destruct (Dict.get positions key); [|assumption].
    apply create_connector_box_keys. now left.
  - apply (fold_left_reach
             (fun (_ : string) (s : nat * dict nat) =>
                In (pin_id_key is_right (pos_module pos) (pos_connector pos) (pc_row_idx e))
                   (keys (snd s))) _ _ _ key).
    + intros s. rewrite Hg. apply create_connector_box_keys. right. now exists pd, e.
    + intros s key' Hs. destruct (Dict.get positions key'); [|assumption].
      apply create_connector_box_keys. now left.
    + apply In_sorted. apply get_In in Hg. now apply (in_map fst) in Hg.
Qed.

Lemma In_keys_get {V : Type} (d : dict V) (k : string) :
  In k (keys d) -> exists v, Dict.get d k = Some v.
Proof.
  intros H. destruct (Dict.get d k) eqn:E; [now eexists|].
  apply get_None in E. contradiction.
Qed.

Lemma pins_list_has_pin (pins_dict : PinsDict) (pin : string) :
  In pin (keys pins_dict) ->
  In (mkPinData pin (first_signal (get_or [] pins_dict pin)) (get_or [] pins_dict pin))
     (make_pins_list py_float pins_dict).
Proof.
  intros H. unfold make_pins_list.
  apply (in_map (fun pin0 => mkPinData pin0 (first_signal (get_or [] pins_dict pin0))
                               (get_or [] pins_dict pin0))).
  unfold sorted_pins, sorted_key. now apply In_sorted.
Qed.

Lemma route_loop_all (b : Boxes) (conns : list Connection) (n : nat) (ws : list Wire) :
  (forall conn m, In conn conns -> exists w, route b m conn = Some w) ->
  map w_row_idx (snd (fold_left (route_step b) conns (n, ws)))
  = map w_row_idx ws ++ map row_idx conns.
Proof.
  revert n ws. induction conns as [|c t IH]; intros n ws H; simpl; [now rewrite app_nil_r|].
  destruct (H c n (or_introl eq_refl)) as [w Hw]. rewrite Hw.
  rewrite IH by (intros; apply H; now right).
  rewrite map_app, <- app_assoc. simpl. now rewrite (route_row_idx _ _ _ _ Hw).
Qed.

Lemma left_side_ready (rs : list Row) (conn : Connection) :
  colon_free (iterrows 0 rs) ->
  In conn (iterrows 0 rs) -> is_valid_signal (signal1 conn) = true ->
  exists lp pd e,
    Dict.get (left_positions (layout py_float (build_index rs))) (left_key_of conn) = Some lp /\
    pos_module lp = mod1 conn /\ pos_connector lp = conn1 conn /\
    In pd (pos_pins lp) /\ In e (pd_connections pd) /\ pc_row_idx e = row_idx conn.
Proof.
  intros Hfree Hin V.
  pose proof (left_complete (iterrows 0 rs) empty_index conn Hin V) as Hent.
  fold (build_index rs) in Hent.
  destruct (pins_at_keys _ _ _ _ _ Hent) as (Hm & Hc & Hp).
  pose proof (left_connectors_placed (build_index rs) _ _ Hm Hc) as Hk.
  destruct (In_keys_get _ _ Hk) as [lp Hg].
  destruct (layout_is_sound (build_index rs)) as (Hl & _ & _).
  destruct (Hl _ _ (get_In _ _ _ Hg)) as (m & c & y & Hm' & _ & _ & Hkey & Hbox).
  destruct (left_module_row rs m Hm') as (r' & Hr' & <-).
  destruct (conn_key_inj _ _ _ _ (proj1 (Hfree conn Hin)) (proj1 (Hfree r' Hr')) Hkey)
    as [Em Ec].
  rewrite <- Em, <- Ec in Hbox. subst lp.
  exists (make_box py_float (left_connectors (build_index rs)) margin_x y (mod1 conn) (conn1 conn)).
  eexists. exists (mkPinConn (signal1 conn) (row_idx conn)).
  split; [exact Hg|]. split; [reflexivity|]. split; [reflexivity|].
  split; [apply pins_list_has_pin; exact Hp|].
  split; [exact Hent | reflexivity].
Qed.

Lemma right_side_ready (rs : list Row) (conn : Connection) :
  colon_free (iterrows 0 rs) ->
  In conn (iterrows 0 rs) -> is_valid_signal (signal2 conn) = true ->
  exists rp pd e,
    Dict.get (right_positions (layout py_float (build_index rs))) (right_key_of conn) = Some rp /\
    pos_module rp = mod2 conn /\ pos_connector rp = conn2 conn /\
    In pd (pos_pins rp) /\ In e (pd_connections pd) /\ pc_row_idx e = row_idx conn.
Proof.
  intros Hfree Hin V.
  pose proof (right_complete (iterrows 0 rs) empty_index conn Hin V) as Hent.
  fold (build_index rs) in Hent.
  destruct (pins_at_keys _ _ _ _ _ Hent) as (Hm & Hc & Hp).
  pose proof (right_connectors_placed (build_index rs) _ _ Hm Hc) as Hk.
  destruct (In_keys_get _ _ Hk) as [rp Hg].
  destruct (layout_is_sound (build_index rs)) as (_ & Hr & _).
  destruct (Hr _ _ (get_In _ _ _ Hg)) as (m & c & y & Hm' & _ & _ & Hkey & Hbox).
  destruct (right_module_row rs m Hm') as (r' & Hr' & <-).
  destruct (conn_key_inj _ _ _ _ (proj2 (Hfree conn Hin)) (proj2 (Hfree r' Hr')) Hkey)
    as [Em Ec].
  rewrite <- Em, <- Ec in Hbox. subst rp.
  exists (make_box py_float (right_connectors (build_index rs)) right_x y (mod2 conn) (conn2 conn)).
  eexists. exists (mkPinConn (signal2 conn) (row_idx conn)).
  split; [exact Hg|]. split; [reflexivity|]. split; [reflexivity|].
  split; [apply pins_list_has_pin; exact Hp|].
  split; [exact Hent | reflexivity].
Qed.

Lemma route_succeeds (rs : list Row) (conn : Connection) (n : nat) :
  colon_free (iterrows 0 rs) ->
  In conn (connections (build_index rs)) ->
  exists w, route (d_boxes (draw py_float (build_index rs))) n conn = Some w.
Proof.
  intros Hfree Hconn. apply connection_row in Hconn. destruct Hconn as (Hin & V1 & V2).
  destruct (left_side_ready rs conn Hfree Hin V1)
    as (lp & pd1 & e1 & Hgl & Hml & Hcl & Hpd1 & He1 & Hr1).
  destruct (right_side_ready rs conn Hfree Hin V2)
    as (rp & pd2 & e2 & Hgr & Hmr & Hcr & Hpd2 & He2 & Hr2).
  destruct (find_pin_idx_some _ _ 0%nat _ _ Hpd1 He1 Hr1) as [li Hli].
  destruct (find_pin_idx_some _ _ 0%nat _ _ Hpd2 He2 Hr2) as [ri Hri].
  assert (Hs : In (pin_id_key false (mod1 conn) (conn1 conn) (row_idx conn))
                  (keys (b_pin_ids (d_boxes (draw py_float (build_index rs)))))).
  { rewrite draw_pin_ids. apply create_boxes_keys. left. apply create_boxes_keys. right.
    exists (left_key_of conn), lp, pd1, e1. rewrite Hml, Hcl, Hr1. auto. }
  assert (Ht : In (pin_id_key true (mod2 conn) (conn2 conn) (row_idx conn))
                  (keys (b_pin_ids (d_boxes (draw py_float (build_index rs)))))).
  { rewrite draw_pin_ids. apply create_boxes_keys. right.
    exists (right_key_of conn), rp, pd2, e2. rewrite Hmr, Hcr, Hr2. auto. }
  destruct (In_keys_get _ _ Hs) as [sid Hsid]. destruct (In_keys_get _ _ Ht) as [tid Htid].
  unfold route, left_pin_idx, right_pin_idx.
  rewrite draw_left, draw_right, Hgl, Hgr, Hsid, Htid, Hli, Hri. eexists. reflexivity.
Qed.

(** X11. When no module name contains a colon, every record with a valid
    signal on both ends is drawn as exactly one wire, and the wires follow
    the sheet order: none of the guards of lines 590, 599 and 622 fires. *)
Theorem every_connection_is_drawn (rs : list Row) :
  colon_free (iterrows 0 rs) ->
  map w_row_idx (d_wires (draw py_float (build_index rs)))
  = map row_idx (filter wired (iterrows 0 rs)).
Proof.
  intros Hfree. unfold draw at 1. cbn [d_wires].
  rewrite route_loop_all.
  - simpl. unfold build_index. now rewrite connections_index_from.
  - intros conn m Hin. now apply (route_succeeds rs conn m Hfree).
Qed.

(** ** Signal colours *)


(** ** What reaches the index *)

Lemma In_iterrows (rs : list Row) (k : nat) (conn : Connection) :
  In conn (iterrows k rs) -> exists r i, In r rs /\ conn = read_row i r.
Proof.
  revert k. induction rs as [|r t IH]; intros k; simpl; [intros []|].
  intros [<-|H].
  - exists r, k. split; [now left | reflexivity].
  - destruct (IH _ H) as (r' & i & Hr & E). exists r', i. split; [now right | assumption].
Qed.

Lemma pin_kept_true (c : Cell) :
  pin_kept c = true ->
  PyStr.strip (astype_str c) <> "" /\ PyStr.lower (PyStr.strip (astype_str c)) <> "nan".
Proof.
  unfold pin_kept. intros H. apply andb_true_iff in H. destruct H as [_ H].
  apply andb_true_iff in H. destruct H as [H1 H2].
  apply negb_true_iff in H1, H2. apply String.eqb_neq in H1, H2. now split.
Qed.


(** ** When a diagram is written *)

Lemma filter_nil_iff {A : Type} (f : A -> bool) (l : list A) :
  filter f l = [] <-> forall x, In x l -> f x = false.
Proof.
  induction l as [|a t IH]; simpl; [tauto|].
  destruct (f a) eqn:E; split.
  - discriminate.
  - intros H. specialize (H a (or_introl eq_refl)). congruence.
  - intros H x [<-|Hx]; [assumption | now apply IH].
  - intros H. apply IH. intros x Hx. apply H. now right.
Qed.


End Properties.

(* ================================================================== *)
(** * Part III: closed instances *)

(** The three rows of [nan_pin_rows] pass the filter and share a connector
    whose pins come out as ["3"], ["+nan"], ["1"]. *)
Lemma nan_pin_rows_pins :
  filter_rows nan_pin_rows = nan_pin_rows /\
  map pd_pin (make_pins_list decimal_float (left_pins (build_index nan_pin_rows) "ModA" "J1"))
  = ["3"; "+nan"; "1"].
Proof. split; vm_compute; reflexivity. Qed.






(** C10 at [crossing_rows]: ModA, listed first, is placed first. *)
Lemma left_order_is_first_appearance_witness :
  (forall m, In m (keys (left_connectors (build_index crossing_rows))) ->
             Dict.mem (temp_left decimal_float (build_index crossing_rows)) m = false) /\
  sorted_left_modules decimal_float (build_index crossing_rows) = ["ModA"; "ModB"].
Proof.
  assert (H : forall m, In m (keys (left_connectors (build_index crossing_rows))) ->
             Dict.mem (temp_left decimal_float (build_index crossing_rows)) m = false).
  { intros m Hm. vm_compute in Hm. destruct Hm as [<-|[<-|[]]]; vm_compute; reflexivity. }
  split; [exact H|].
  rewrite (proj2 (left_order_is_first_appearance decimal_float crossing_rows H)).
  vm_compute. reflexivity.
Defined.

(** C1 at [crossing_rows].  ModA is wired to ModZ, provisionally at
    Y = 258, and ModB to ModY, provisionally at Y = 100: the means are 258
    and 100.  The code computes 0 for both, and places ModA above ModB,
    against the ascending order of the means. *)
Lemma center_of_mass_of_wired_module_is_zero :
  spec_center_of_mass (connections (build_index crossing_rows))
    (temp_right decimal_float (build_index crossing_rows)) "ModA" = float_of_Z 258 /\
  spec_center_of_mass (connections (build_index crossing_rows))
    (temp_right decimal_float (build_index crossing_rows)) "ModB" = float_of_Z 100 /\
  calculate_center_of_mass (connections (build_index crossing_rows)) "ModA" true
    (temp_left decimal_float (build_index crossing_rows))
    (temp_right decimal_float (build_index crossing_rows)) = float_zero /\
  calculate_center_of_mass (connections (build_index crossing_rows)) "ModB" true
    (temp_left decimal_float (build_index crossing_rows))
    (temp_right decimal_float (build_index crossing_rows)) = float_zero /\
  sorted_left_modules decimal_float (build_index crossing_rows) = ["ModA"; "ModB"] /\
  SFltb (float_of_Z 100) (float_of_Z 258) = true.
Proof. repeat split; vm_compute; reflexivity. Qed.

(** C2, as stated, fails.  In [shared_module_rows] the LEFT connector
    ModA:J1 is wired to ModB:P1 only.  ModB is connected to it and ModB:P2
    is not yet placed, yet placing ModA:J1 puts ModB:P1 alone on the RIGHT:
    the guard of lines 339-349 skips ModB:P2, which waits for ModA:J2. *)
Lemma unwired_group_not_coplaced :
  ~ all_groups_coplaced decimal_float (build_index shared_module_rows) "ModA" "J1"
      (mkLayout [] [] margin_y).
Proof.
  unfold all_groups_coplaced. vm_compute. intros H. discriminate H.
Qed.

(** The same sheet seen after the whole placement: ModB:P2 sits at the Y
    of ModA:J2 (238), not under ModB:P1 (which would be 208). *)
Lemma unwired_group_final_position :
  map (fun kp => (fst kp, pos_y (snd kp)))
      (left_positions (layout decimal_float (build_index shared_module_rows)))
  = [("ModA:J1", 100); ("ModA:J2", 238)] /\
  map (fun kp => (fst kp, pos_y (snd kp)))
      (right_positions (layout decimal_float (build_index shared_module_rows)))
  = [("ModB:P1", 100); ("ModB:P2", 238)].
Proof. split; vm_compute; reflexivity. Qed.

(** C4 at [fan_rows]: the wires of pins 1 and 2 of ModA:J1 leave in lanes
    325 and 337. *)
Lemma lane_offsets_witness :
  route (d_boxes (draw decimal_float (build_index fan_rows))) 17 (fan_conn 0) = Some (fan_wire 0) /\
  route (d_boxes (draw decimal_float (build_index fan_rows))) 18 (fan_conn 1) = Some (fan_wire 1) /\
  left_pin_idx (d_boxes (draw decimal_float (build_index fan_rows))) (fan_conn 0) = Some 0%nat /\
  left_pin_idx (d_boxes (draw decimal_float (build_index fan_rows))) (fan_conn 1) = Some 1%nat /\
  spacing <= Z.abs (exit_x (fan_wire 0) - exit_x (fan_wire 1)).
Proof.
  assert (H1 : route (d_boxes (draw decimal_float (build_index fan_rows))) 17 (fan_conn 0)
               = Some (fan_wire 0)) by (vm_compute; reflexivity).
  assert (H2 : route (d_boxes (draw decimal_float (build_index fan_rows))) 18 (fan_conn 1)
               = Some (fan_wire 1)) by (vm_compute; reflexivity).
  assert (I1 : left_pin_idx (d_boxes (draw decimal_float (build_index fan_rows))) (fan_conn 0)
               = Some 0%nat) by (vm_compute; reflexivity).
  assert (I2 : left_pin_idx (d_boxes (draw decimal_float (build_index fan_rows))) (fan_conn 1)
               = Some 1%nat) by (vm_compute; reflexivity).
  repeat split; try assumption.
  exact (proj1 (lane_offsets decimal_float fan_rows) _ _ _ _ _ _ _ _
           H1 H2 eq_refl eq_refl I1 I2 (fun E : 0%nat = 1%nat => O_S 0 E)).
Defined.



(** X7 at [fan_rows]: the wire of row 0. *)
Lemma wires_run_between_their_boxes_witness :
  In (fan_wire 0) (d_wires (draw decimal_float (build_index fan_rows))) /\
  exists conn lp rp,
    In conn (connections (build_index fan_rows)) /\ row_idx conn = w_row_idx (fan_wire 0) /\
    Dict.get (b_left (d_boxes (draw decimal_float (build_index fan_rows)))) (left_key_of conn)
      = Some lp /\
    Dict.get (b_right (d_boxes (draw decimal_float (build_index fan_rows)))) (right_key_of conn)
      = Some rp /\
    orthogonal_between lp rp (fan_wire 0).
Proof.
  assert (H : In (fan_wire 0) (d_wires (draw decimal_float (build_index fan_rows))))
    by (vm_compute; left; reflexivity).
  split; [exact H|].
  exact (wires_run_between_their_boxes decimal_float fan_rows _ H).
Defined.

(** X8 at [fan_rows]: the wires of rows 0 and 2 end at ModB:P1 and ModC:P1
    and arrive in lanes 705 and 669. *)
Lemma lanes_of_different_connectors_witness :
  route (d_boxes (draw decimal_float (build_index fan_rows))) 17 (fan_conn 0) = Some (fan_wire 0) /\
  route (d_boxes (draw decimal_float (build_index fan_rows))) 19 (fan_conn 2) = Some (fan_wire 2) /\
  right_key_of (fan_conn 0) <> right_key_of (fan_conn 2) /\
  entry_x (fan_wire 0) = 705 /\ entry_x (fan_wire 2) = 669 /\
  24 <= Z.abs (entry_x (fan_wire 0) - entry_x (fan_wire 2)).
Proof.
  assert (H1 : route (d_boxes (draw decimal_float (build_index fan_rows))) 17 (fan_conn 0)
               = Some (fan_wire 0)) by (vm_compute; reflexivity).
  assert (H2 : route (d_boxes (draw decimal_float (build_index fan_rows))) 19 (fan_conn 2)
               = Some (fan_wire 2)) by (vm_compute; reflexivity).
  assert (N : right_key_of (fan_conn 0) <> right_key_of (fan_conn 2))
    by (vm_compute; discriminate).
  split; [exact H1|]. split; [exact H2|]. split; [exact N|].
  split; [vm_compute; reflexivity|]. split; [vm_compute; reflexivity|].
  exact (proj2 (lanes_of_different_connectors decimal_float fan_rows _ _ _ _ _ _ H1 H2) N).
Defined.

(** X10 at [crossing_rows]: ModA and ModB keep the order of the sheet. *)
Lemma colon_free_modules_keep_sheet_order_witness :
  (forall m, In m (keys (left_connectors (build_index crossing_rows))) -> has_colon m = false) /\
  sorted_left_modules decimal_float (build_index crossing_rows)
  = first_appearance_order (iterrows 0 crossing_rows).
Proof.
  assert (H : forall m, In m (keys (left_connectors (build_index crossing_rows))) ->
                        has_colon m = false).
  { intros m Hm. vm_compute in Hm. destruct Hm as [<-|[<-|[]]]; vm_compute; reflexivity. }
  split; [exact H|].
  exact (colon_free_modules_keep_sheet_order decimal_float crossing_rows H).
Defined.

(** X11 at [fan_rows]: three wired rows, three wires. *)
Lemma every_connection_is_drawn_witness :
  colon_free (iterrows 0 fan_rows) /\
  map w_row_idx (d_wires (draw decimal_float (build_index fan_rows)))
  = map row_idx (filter wired (iterrows 0 fan_rows)).
Proof.
  assert (H : colon_free (iterrows 0 fan_rows)).
  { intros r Hr. vm_compute in Hr.
    destruct Hr as [<-|[<-|[<-|[]]]]; vm_compute; split; reflexivity. }
  split; [exact H|].
  exact (every_connection_is_drawn decimal_float fan_rows H).
Defined.

